(** * Improv-BLE config flow: a shallow embedding of
      [homeassistant/components/improv_ble/config_flow.py]

    The flow object's fields, the event loop's task table, the device's
    callback registry and the flow manager's bookkeeping are gathered in one
    record, [World]; every step of the flow is a function from worlds to an
    outcome and a new world. *)

From stdpp Require Import base option list strings.

(** ** Data of the client library the flow consumes *)

(** [improv_ble_client.State] *)
Inductive State := AUTHORIZATION_REQUIRED | AUTHORIZED | PROVISIONING | PROVISIONED.

(** [improv_ble_client.Error] *)
Inductive Error :=
  | NO_ERROR | INVALID_RPC_PACKET | UNKNOWN_RPC_COMMAND
  | UNABLE_TO_CONNECT | NOT_AUTHORIZED | UNKNOWN_ERROR.

(** Exceptions a step can see.  [ProvisioningFailed] is a [CommandFailed] in
    the client library; that is what makes the handler of [_do_provision]
    reachable behind [_try_call].  [OtherException] stands for every other
    [Exception]. *)
Inductive Exn :=
  | BleakError
  | CharacteristicMissingError
  | CommandFailed
  | ProvisioningFailed (error : Error)
  | OtherException
  | AssertionError.

Global Instance State_eq_dec : EqDecision State.
Proof. solve_decision. Defined.
Global Instance Error_eq_dec : EqDecision Error.
Proof. solve_decision. Defined.
Global Instance Exn_eq_dec : EqDecision Exn.
Proof. solve_decision. Defined.

(** [isinstance(e, CommandFailed)] *)
Definition is_CommandFailed (e : Exn) : bool :=
  match e with
  | CommandFailed | ProvisioningFailed _ => true
  | _ => false
  end.

(** What awaiting a library coroutine gives. *)
Inductive Outcome (A : Type) :=
  | Returns (a : A)
  | Raises (e : Exn).
Arguments Returns {A} a.
Arguments Raises {A} e.

(** ** Data of the flow *)

Record Credentials := mkCredentials { password : string; ssid : string }.

(** The part of [BluetoothServiceInfoBleak] the steps read: the address and
    the state decoded from the Improv service data. *)
Record DiscoveryInfo := mkDiscoveryInfo { address : string; adv_state : State }.

(** Validated input of a form; only the provision form has fields. *)
Record UserInput := mkUserInput { ui_ssid : string; ui_password : option string }.

(** [FlowResult], by the helper that builds it. *)
Inductive FlowResult :=
  | async_show_form (step_id : string) (data_schema : bool)
      (errors : option (list (string * string)))
  | async_show_menu (step_id : string) (menu_options : list string)
  | async_show_progress (step_id : string) (progress_action : string)
  | async_show_progress_done (next_step_id : string)
  | async_abort (reason : string)
      (description_placeholders : list (string * string)).

Global Instance Credentials_eq_dec : EqDecision Credentials.
Proof. solve_decision. Defined.
Global Instance FlowResult_eq_dec : EqDecision FlowResult.
Proof. solve_decision. Defined.

(** ** The event loop and the device registry *)

(** The coroutine a task wraps in [_resume_flow_when_done]. *)
Inductive Coro :=
  | DoProvision                (* [_do_provision()] *)
  | EventWait (ev : nat).      (* [authorized_event.wait()] *)

Inductive TaskStatus :=
  | Pending
  | Suspended (on : nat)       (* parked at [await self._authorize_task] *)
  | Done
  | Failed (e : Exn).

Abbreviation Task := (Coro * TaskStatus)%type.

(** One [subscribe_state_updates] registration together with the
    [asyncio.Event] its callback closes over. *)
Record Subscription := mkSubscription {
  active : bool;       (* the callback is still registered *)
  event_set : bool;    (* [authorized_event.is_set()] *)
  releases : nat       (* how often the unsubscribe handle was called *)
}.

(** An entry of [_async_in_progress]. *)
Record FlowInfo := mkFlowInfo { fi_flow_id : nat; fi_unique_id : option string }.

(** Library and bluetooth calls, in the order they were issued
    (newest first). *)
Inductive Call :=
  | CLastServiceInfo
  | CCanIdentify
  | CIdentify
  | CNeedAuthorization
  | CSubscribe
  | CProvision (ssid password : string).

Inductive Op :=
  OpLastServiceInfo | OpCanIdentify | OpIdentify | OpNeedAuthorization
  | OpSubscribe | OpProvision.

Definition is_op (o : Op) (c : Call) : bool :=
  match o, c with
  | OpLastServiceInfo, CLastServiceInfo
  | OpCanIdentify, CCanIdentify
  | OpIdentify, CIdentify
  | OpNeedAuthorization, CNeedAuthorization
  | OpSubscribe, CSubscribe
  | OpProvision, CProvision _ _ => true
  | _, _ => false
  end.

Fixpoint ncalls (o : Op) (l : list Call) : nat :=
  match l with
  | [] => 0
  | c :: l => (if is_op o c then 1 else 0) + ncalls o l
  end.

(** The environment: what the [k]-th call of each operation answers. *)
Record Device := mkDevice {
  last_service_info : nat -> string -> option DiscoveryInfo;
  can_identify : nat -> Outcome bool;
  identify : nat -> Outcome unit;
  need_authorization : nat -> Outcome bool;
  subscribe_state_updates : nat -> Outcome unit;
  provision : nat -> string -> string -> Outcome (option string)
}.

(** ** The world *)

Record World := mkWorld {
  (* fields of [ConfigFlow] *)
  _authorize_task : option nat;
  _can_identify : option bool;
  _credentials : option Credentials;
  _provision_result : option FlowResult;
  _provision_task : option nat;
  _unsub : option nat;
  _device : bool;                         (* the client has been built *)
  _discovery_info : option DiscoveryInfo;
  flow_id : nat;
  unique_id : option string;
  (* the event loop, the device and the flow manager *)
  tasks : list Task;                      (* handle = index *)
  subs : list Subscription;               (* handle = index *)
  resumptions : nat;                      (* [async_configure] calls scheduled *)
  calls : list Call;
  in_progress : list FlowInfo;
  aborted : list nat                      (* flows given to [flow.async_abort] *)
}.

Definition set_authorize_task (v : option nat) (w : World) : World :=
  mkWorld v (_can_identify w) (_credentials w) (_provision_result w)
    (_provision_task w) (_unsub w) (_device w) (_discovery_info w) (flow_id w)
    (unique_id w) (tasks w) (subs w) (resumptions w) (calls w) (in_progress w)
    (aborted w).
Definition set_can_identify (v : option bool) (w : World) : World :=
  mkWorld (_authorize_task w) v (_credentials w) (_provision_result w)
    (_provision_task w) (_unsub w) (_device w) (_discovery_info w) (flow_id w)
    (unique_id w) (tasks w) (subs w) (resumptions w) (calls w) (in_progress w)
    (aborted w).
Definition set_credentials (v : option Credentials) (w : World) : World :=
  mkWorld (_authorize_task w) (_can_identify w) v (_provision_result w)
    (_provision_task w) (_unsub w) (_device w) (_discovery_info w) (flow_id w)
    (unique_id w) (tasks w) (subs w) (resumptions w) (calls w) (in_progress w)
    (aborted w).
Definition set_provision_result (v : option FlowResult) (w : World) : World :=
  mkWorld (_authorize_task w) (_can_identify w) (_credentials w) v
    (_provision_task w) (_unsub w) (_device w) (_discovery_info w) (flow_id w)
    (unique_id w) (tasks w) (subs w) (resumptions w) (calls w) (in_progress w)
    (aborted w).
Definition set_provision_task (v : option nat) (w : World) : World :=
  mkWorld (_authorize_task w) (_can_identify w) (_credentials w)
    (_provision_result w) v (_unsub w) (_device w) (_discovery_info w)
    (flow_id w) (unique_id w) (tasks w) (subs w) (resumptions w) (calls w)
    (in_progress w) (aborted w).
Definition set_unsub (v : option nat) (w : World) : World :=
  mkWorld (_authorize_task w) (_can_identify w) (_credentials w)
    (_provision_result w) (_provision_task w) v (_device w) (_discovery_info w)
    (flow_id w) (unique_id w) (tasks w) (subs w) (resumptions w) (calls w)
    (in_progress w) (aborted w).
Definition set_device (v : bool) (w : World) : World :=
  mkWorld (_authorize_task w) (_can_identify w) (_credentials w)
    (_provision_result w) (_provision_task w) (_unsub w) v (_discovery_info w)
    (flow_id w) (unique_id w) (tasks w) (subs w) (resumptions w) (calls w)
    (in_progress w) (aborted w).
Definition set_discovery_info (v : option DiscoveryInfo) (w : World) : World :=
  mkWorld (_authorize_task w) (_can_identify w) (_credentials w)
    (_provision_result w) (_provision_task w) (_unsub w) (_device w) v
    (flow_id w) (unique_id w) (tasks w) (subs w) (resumptions w) (calls w)
    (in_progress w) (aborted w).
Definition set_tasks (v : list Task) (w : World) : World :=
  mkWorld (_authorize_task w) (_can_identify w) (_credentials w)
    (_provision_result w) (_provision_task w) (_unsub w) (_device w)
    (_discovery_info w) (flow_id w) (unique_id w) v (subs w) (resumptions w)
    (calls w) (in_progress w) (aborted w).
Definition set_subs (v : list Subscription) (w : World) : World :=
  mkWorld (_authorize_task w) (_can_identify w) (_credentials w)
    (_provision_result w) (_provision_task w) (_unsub w) (_device w)
    (_discovery_info w) (flow_id w) (unique_id w) (tasks w) v (resumptions w)
    (calls w) (in_progress w) (aborted w).
Definition set_resumptions (v : nat) (w : World) : World :=
  mkWorld (_authorize_task w) (_can_identify w) (_credentials w)
    (_provision_result w) (_provision_task w) (_unsub w) (_device w)
    (_discovery_info w) (flow_id w) (unique_id w) (tasks w) (subs w) v
    (calls w) (in_progress w) (aborted w).
Definition set_calls (v : list Call) (w : World) : World :=
  mkWorld (_authorize_task w) (_can_identify w) (_credentials w)
    (_provision_result w) (_provision_task w) (_unsub w) (_device w)
    (_discovery_info w) (flow_id w) (unique_id w) (tasks w) (subs w)
    (resumptions w) v (in_progress w) (aborted w).
Definition set_flows (p : list FlowInfo) (a : list nat) (w : World) : World :=
  mkWorld (_authorize_task w) (_can_identify w) (_credentials w)
    (_provision_result w) (_provision_task w) (_unsub w) (_device w)
    (_discovery_info w) (flow_id w) (unique_id w) (tasks w) (subs w)
    (resumptions w) (calls w) p a.

(** A flow object right after [__init__] and the confirmation of a device:
    every class-level field still [None]. *)
Definition fresh (fid : nat) (uid : option string) (di : DiscoveryInfo)
    (others : list FlowInfo) : World :=
  mkWorld None None None None None None false (Some di) fid uid
    [] [] 0 [] others [].

(** ** [_try_call] *)

(** Result of [await self._try_call(func)]: a value, an [AbortFlow] carrying
    its reason, or the library exception passed on by the bare [raise]. *)
Inductive TryCall (A : Type) :=
  | Returned (a : A)
  | AbortFlow (reason : string)
  | Reraised (e : Exn).
Arguments Returned {A} a.
Arguments AbortFlow {A} reason.
Arguments Reraised {A} e.

Definition _try_call {A : Type} (func : Outcome A) : TryCall A :=
  match func with
  | Returns a => Returned a
  | Raises BleakError => AbortFlow "cannot_connect"
  | Raises CharacteristicMissingError => AbortFlow "characteristic_missing"
  | Raises e => if is_CommandFailed e then Reraised e else AbortFlow "unknown"
  end.

(** ** Event loop primitives *)

Definition log_call (c : Call) (w : World) : World :=
  set_calls (c :: calls w) w.

(** [hass.async_create_task(self._resume_flow_when_done(coro))]: the new
    task's handle is its index in the task table. *)
Definition async_create_task (c : Coro) (w : World) : nat * World :=
  (length (tasks w), set_tasks (tasks w ++ [(c, Pending)]) w).

(** State of the task behind a handle. *)
Definition task_status (w : World) (t : nat) : TaskStatus :=
  match tasks w !! t with
  | Some (_, s) => s
  | None => Pending
  end.

(** [_resume_flow_when_done]: the wrapped awaitable has returned or raised;
    the [finally] clause schedules one [async_configure] of this flow and the
    task settles with the awaitable's outcome. *)
Definition _resume_flow_when_done (t : nat) (s : TaskStatus) (w : World) : World :=
  match tasks w !! t with
  | Some (c, _) =>
      set_resumptions (S (resumptions w)) (set_tasks (<[t := (c, s)]> (tasks w)) w)
  | None => w
  end.

(** Calling the handle returned by [subscribe_state_updates]. *)
Definition unsubscribe (u : nat) (w : World) : World :=
  match subs w !! u with
  | Some s =>
      set_subs (<[u := mkSubscription false (event_set s) (S (releases s))]> (subs w)) w
  | None => w
  end.

(** [on_state_update], run on one registration. *)
Definition on_state_update (state : State) (s : Subscription) : Subscription :=
  if active s then
    if bool_decide (state ≠ AUTHORIZATION_REQUIRED)
    then mkSubscription (active s) true (releases s)
    else s
  else s.

(** Is the task an [authorized_event.wait()] whose event is set? *)
Definition wakes (ss : list Subscription) (t : Task) : bool :=
  match t with
  | (EventWait ev, Pending) =>
      match ss !! ev with Some s => event_set s | None => false end
  | _ => false
  end.

(** Every waiter whose event is set returns, each through
    [_resume_flow_when_done]. *)
Fixpoint wake_from (i : nat) (ts : list Task) (w : World) : World :=
  match ts with
  | [] => w
  | t :: ts =>
      wake_from (S i) ts
        (if wakes (subs w) t then _resume_flow_when_done i Done w else w)
  end.

(** The device reports a state: the registered callbacks run, then the loop
    wakes the waiters. *)
Definition notify (state : State) (w : World) : World :=
  let w1 := set_subs (on_state_update state <$> subs w) w in
  wake_from 0 (tasks w1) w1.

(** ** Steps of the flow *)

Inductive StepOut :=
  | Ret (r : FlowResult)
  | Exc (e : Exn)
  | Await (t : nat).   (* the call is parked on a task that has not settled *)

Definition STEP_PROVISION_SCHEMA : bool := true.

Definition async_step_main_menu (w : World) : StepOut * World :=
  (Ret (async_show_menu "main_menu" ["identify"; "provision"]), w).

(** The part of [async_step_authorize] from [await self._authorize_task] on. *)
Definition authorize_join (t : nat) (w : World) : StepOut * World :=
  match task_status w t with
  | Pending | Suspended _ => (Await t, w)
  | Failed e => (Exc e, w)
  | Done =>
      let w1 := set_authorize_task None w in
      let w2 := match _unsub w1 with
                | Some u => set_unsub None (unsubscribe u w1)
                | None => w1
                end in
      (Ret (async_show_progress_done "provision"), w2)
  end.

Section Flow.
Variable dev : Device.

Definition async_step_authorize (w : World) : StepOut * World :=
  if negb (_device w) then (Exc AssertionError, w) else
  match _authorize_task w with
  | None =>
      let n := ncalls OpSubscribe (calls w) in
      let w1 := log_call CSubscribe w in
      match _try_call (subscribe_state_updates dev n) with
      | AbortFlow reason => (Ret (async_abort reason []), w1)
      | Reraised e => (Exc e, w1)
      | Returned _ =>
          let u := length (subs w1) in
          let w2 := set_unsub (Some u)
                      (set_subs (subs w1 ++ [mkSubscription true false 0]) w1) in
          let '(t, w3) := async_create_task (EventWait u) w2 in
          (Ret (async_show_progress "authorize" "authorize"),
           set_authorize_task (Some t) w3)
      end
  | Some t => authorize_join t w
  end.

(** The loop of [_do_provision] over [_async_in_progress]: every other flow
    with this flow's unique id is handed to [flow.async_abort]. *)
Definition same_unique_id (w : World) (f : FlowInfo) : bool :=
  bool_decide (fi_flow_id f ≠ flow_id w) && bool_decide (unique_id w = fi_unique_id f).

Definition abort_same_unique_id (w : World) : World :=
  set_flows (filter (λ f, same_unique_id w f = false) (in_progress w))
    (aborted w ++ (fi_flow_id <$> filter (λ f, same_unique_id w f = true) (in_progress w)))
    w.

(** How the body of a task leaves off. *)
Inductive BodyOut :=
  | BReturn
  | BRaise (e : Exn)
  | BAwait (t : nat).

(** What [_do_provision] does with the result of the nested
    [async_step_authorize]. *)
Definition store_authorize (o : StepOut * World) : BodyOut * World :=
  match o with
  | (Ret r, w) => (BReturn, set_provision_result (Some r) w)
  | (Exc e, w) => (BRaise e, w)
  | (Await t, w) => (BAwait t, w)
  end.

Definition _do_provision (w : World) : BodyOut * World :=
  match _credentials w with
  | None => (BRaise AssertionError, w)
  | Some cred =>
    if negb (_device w) then (BRaise AssertionError, w) else
    let n := ncalls OpProvision (calls w) in
    let w1 := log_call (CProvision (ssid cred) (password cred)) w in
    match _try_call (provision dev n (ssid cred) (password cred)) with
    | AbortFlow reason =>
        (BReturn, set_provision_result (Some (async_abort reason [])) w1)
    | Reraised (ProvisioningFailed err) =>
        if bool_decide (err = NOT_AUTHORIZED) then
          store_authorize (async_step_authorize w1)
        else if bool_decide (err = UNABLE_TO_CONNECT) then
          let w2 := set_credentials None w1 in
          (BReturn,
           set_provision_result
             (Some (async_show_form "provision" STEP_PROVISION_SCHEMA
                      (Some [("base", "unable_to_connect")]))) w2)
        else
          (BReturn, set_provision_result (Some (async_abort "unknown" [])) w1)
    | Reraised e => (BRaise e, w1)
    | Returned redirect_url =>
        let w2 := abort_same_unique_id w1 in
        match redirect_url with
        | Some (String a s) =>
            (BReturn,
             set_provision_result
               (Some (async_abort "provision_successful_url"
                        [("url", String a s)])) w2)
        | _ =>
            (BReturn,
             set_provision_result (Some (async_abort "provision_successful" [])) w2)
        end
    end
  end.

Definition async_step_do_provision (w : World) : StepOut * World :=
  match _provision_task w with
  | None =>
      let '(t, w1) := async_create_task DoProvision w in
      (Ret (async_show_progress "do_provision" "provisioning"),
       set_provision_task (Some t) w1)
  | Some t =>
      match task_status w t with
      | Pending | Suspended _ => (Await t, w)
      | Failed e => (Exc e, w)
      | Done =>
          (Ret (async_show_progress_done "provision_done"),
           set_provision_task None w)
      end
  end.

Definition async_step_provision_done (w : World) : StepOut * World :=
  match _provision_result w with
  | None => (Exc AssertionError, w)
  | Some result => (Ret result, set_provision_result None w)
  end.

Definition async_step_provision (user_input : option UserInput) (w : World)
    : StepOut * World :=
  if negb (_device w) then (Exc AssertionError, w) else
  match user_input, _credentials w with
  | None, None =>
      (Ret (async_show_form "provision" STEP_PROVISION_SCHEMA None), w)
  | _, _ =>
      let w1 := match user_input with
                | Some ui =>
                    set_credentials
                      (Some (mkCredentials (default EmptyString (ui_password ui)) (ui_ssid ui))) w
                | None => w
                end in
      let n := ncalls OpNeedAuthorization (calls w1) in
      let w2 := log_call CNeedAuthorization w1 in
      match _try_call (need_authorization dev n) with
      | AbortFlow reason => (Ret (async_abort reason []), w2)
      | Reraised e => (Exc e, w2)
      | Returned true => async_step_authorize w2
      | Returned false => async_step_do_provision w2
      end
  end.

Definition already_provisioned (s : State) : bool :=
  match s with
  | PROVISIONING | PROVISIONED => true
  | _ => false
  end.

Definition async_step_start_improv (w : World) : StepOut * World :=
  match _discovery_info w with
  | None => (Exc AssertionError, w)
  | Some old =>
    let n := ncalls OpLastServiceInfo (calls w) in
    let found := last_service_info dev n (address old) in
    let w1 := set_discovery_info found (log_call CLastServiceInfo w) in
    match found with
    | None => (Ret (async_abort "cannot_connect" []), w1)
    | Some discovery_info =>
      if already_provisioned (adv_state discovery_info)
      then (Ret (async_abort "already_provisioned" []), w1) else
      let w2 := if _device w1 then w1 else set_device true w1 in
      let branch (b : bool) (w : World) :=
        if b then async_step_main_menu w else async_step_provision None w in
      match _can_identify w2 with
      | None =>
          let k := ncalls OpCanIdentify (calls w2) in
          let w3 := log_call CCanIdentify w2 in
          match _try_call (can_identify dev k) with
          | AbortFlow reason => (Ret (async_abort reason []), w3)
          | Reraised e => (Exc e, w3)
          | Returned b => branch b (set_can_identify (Some b) w3)
          end
      | Some b => branch b w2
      end
    end
  end.

Definition async_step_identify (user_input : option UserInput) (w : World)
    : StepOut * World :=
  if negb (_device w) then (Exc AssertionError, w) else
  match user_input with
  | None =>
      let n := ncalls OpIdentify (calls w) in
      let w1 := log_call CIdentify w in
      match _try_call (identify dev n) with
      | AbortFlow reason => (Ret (async_abort reason []), w1)
      | Reraised e => (Exc e, w1)
      | Returned _ => (Ret (async_show_form "identify" false None), w1)
      end
  | Some _ => async_step_start_improv w
  end.

(** ** The event loop running the flow *)

(** The loop gives a provisioning task its turn: a pending body runs, a body
    parked inside the nested authorize step goes on from its [await]. *)
Definition settle (t : nat) (o : BodyOut * World) : World :=
  match o with
  | (BReturn, w) => _resume_flow_when_done t Done w
  | (BRaise e, w) => _resume_flow_when_done t (Failed e) w
  | (BAwait on, w) =>
      set_tasks (<[t := (DoProvision, Suspended on)]> (tasks w)) w
  end.

Definition run_task (t : nat) (w : World) : World :=
  match tasks w !! t with
  | Some (DoProvision, Pending) => settle t (_do_provision w)
  | Some (DoProvision, Suspended on) =>
      match task_status w on with
      | Pending | Suspended _ => w
      | _ => settle t (store_authorize (authorize_join on w))
      end
  | _ => w
  end.

Inductive StepId :=
  | start_improv | main_menu | identify_step | provision_step
  | do_provision | provision_done | authorize.

Definition step (s : StepId) (user_input : option UserInput) (w : World)
    : StepOut * World :=
  match s with
  | start_improv => async_step_start_improv w
  | main_menu => async_step_main_menu w
  | identify_step => async_step_identify user_input w
  | provision_step => async_step_provision user_input w
  | do_provision => async_step_do_provision w
  | provision_done => async_step_provision_done w
  | authorize => async_step_authorize w
  end.

(** What can happen to a flow: the manager invokes a step, the device
    reports a state, the loop runs a task. *)
Inductive Action :=
  | Invoke (s : StepId) (user_input : option UserInput)
  | Notify (state : State)
  | RunTask (t : nat).

Definition act (a : Action) (w : World) : World :=
  match a with
  | Invoke s ui => (step s ui w).2
  | Notify st => notify st w
  | RunTask t => run_task t w
  end.

Definition run (l : list Action) (w : World) : World :=
  foldl (λ w a, act a w) w l.

End Flow.


(** ** Vocabulary of the statements *)

(** The two kinds of background task and the field holding each one's
    handle. *)
Inductive Kind := AuthorizationWait | ProvisioningAttempt.

Global Instance Kind_eq_dec : EqDecision Kind.
Proof. solve_decision. Defined.

Definition kind_of (c : Coro) : Kind :=
  match c with
  | DoProvision => ProvisioningAttempt
  | EventWait _ => AuthorizationWait
  end.

Definition handle (k : Kind) (w : World) : option nat :=
  match k with
  | AuthorizationWait => _authorize_task w
  | ProvisioningAttempt => _provision_task w
  end.

(** A task that has neither returned nor raised. *)
Definition unsettled (s : TaskStatus) : bool :=
  match s with
  | Pending | Suspended _ => true
  | Done | Failed _ => false
  end.

Definition in_flight (w : World) (i : nat) (k : Kind) : Prop :=
  exists c s, tasks w !! i = Some (c, s) /\ kind_of c = k /\ unsettled s = true.

(** Every task in flight is the one its kind's field points to. *)
Definition tracked (w : World) : Prop :=
  forall i k, in_flight w i k -> handle k w = Some i.

(** Number of tasks that have settled. *)
Fixpoint settled (ts : list Task) : nat :=
  match ts with
  | [] => 0
  | (_, s) :: ts => (if unsettled s then 0 else 1) + settled ts
  end.

(** A transition that settles no task and schedules no resumption. *)
Definition quiet (w w' : World) : Prop :=
  resumptions w' = resumptions w /\ settled (tasks w') = settled (tasks w).

(** A transition that schedules exactly as many resumptions as it settles
    tasks. *)
Definition balanced (w w' : World) : Prop :=
  resumptions w' + settled (tasks w) = resumptions w + settled (tasks w').

(** What a device notification can do to the flow: nothing but settle
    pending authorization waits. *)
Definition woken (w w' : World) : Prop :=
  _authorize_task w' = _authorize_task w
  /\ _provision_task w' = _provision_task w
  /\ _provision_result w' = _provision_result w
  /\ _credentials w' = _credentials w
  /\ _can_identify w' = _can_identify w
  /\ calls w' = calls w
  /\ length (tasks w') = length (tasks w)
  /\ forall j c s, tasks w' !! j = Some (c, s) ->
       tasks w !! j = Some (c, s)
       \/ exists ev, c = EventWait ev /\ s = Done
                     /\ tasks w !! j = Some (c, Pending).

(** ** The flow manager

    The interactive surface that invokes the steps is not part of the source
    file; the definitions of this section stand for it. *)

(** Modelled from the spec: the name of a step, as results carry it, to the
    step the manager invokes for it. *)
Definition step_of_name (s : string) : option StepId :=
  if String.eqb s "main_menu" then Some main_menu
  else if String.eqb s "identify" then Some identify_step
  else if String.eqb s "provision" then Some provision_step
  else if String.eqb s "do_provision" then Some do_provision
  else if String.eqb s "provision_done" then Some provision_done
  else if String.eqb s "authorize" then Some authorize
  else None.

(** Modelled from the spec: the step a result leads to (section 6: a form,
    a menu and a progress indicator name their own step, progress-done names
    the follow-up step, an abort is terminal). *)
Definition next_step (r : FlowResult) : option StepId :=
  match r with
  | async_show_form s _ _ | async_show_menu s _ | async_show_progress s _
  | async_show_progress_done s => step_of_name s
  | async_abort _ _ => None
  end.

(** Modelled from the spec: a flow in the manager's hands, the step the last
    result named ([None] once the flow is over) and the flow itself. *)
Record Managed := mkManaged { cur_step : option StepId; flow : World }.

(** Modelled from the spec: what reaches a managed flow. *)
Inductive Event :=
  | Configure (user_input : option UserInput)   (* a request for the flow *)
  | Choose (option : StepId)                    (* a pick from the menu *)
  | Report (state : State)                      (* the device notifies *)
  | Turn (t : nat).                             (* the loop runs a task *)

(** Modelled from the spec: the manager invokes a step and remembers the
    step its result names; a step that raises, or that is parked on a task,
    leaves the remembered step as it is. *)
Definition dispatch (dev : Device) (s : StepId) (ui : option UserInput)
    (m : Managed) : Managed :=
  let '(o, w) := step dev s ui (flow m) in
  mkManaged (match o with Ret r => next_step r | _ => cur_step m end) w.

(** Modelled from the spec: a request invokes the remembered step (sections
    4.4 and 6), a pick from the main menu invokes the option picked, and a
    flow that is over takes no more requests. *)
Definition receive (dev : Device) (e : Event) (m : Managed) : Managed :=
  match e with
  | Configure ui =>
      match cur_step m with
      | Some s => dispatch dev s ui m
      | None => m
      end
  | Choose s =>
      match cur_step m, s with
      | Some main_menu, (identify_step | provision_step) => dispatch dev s None m
      | _, _ => m
      end
  | Report st => mkManaged (cur_step m) (notify st (flow m))
  | Turn t => mkManaged (cur_step m) (run_task dev t (flow m))
  end.

Definition manage (dev : Device) (l : list Event) (m : Managed) : Managed :=
  foldl (λ m e, receive dev e m) m l.

(** A flow whose device has been confirmed: the next request enters
    [async_step_start_improv]. *)
Definition confirmed (fid : nat) (uid : option string) (di : DiscoveryInfo)
    (others : list FlowInfo) : Managed :=
  mkManaged (Some start_improv) (fresh fid uid di others).








(** A task that is not a pending wait: no notification wakes it. *)
Definition deaf (t : Task) : Prop := forall ss, wakes ss t = false.



(** Removal of the flow by the manager, at the operator's request or
    through another flow's [flow.async_abort].  [ConfigFlow] defines no
    [async_remove] and no other clean-up method, so no code of the flow runs:
    its fields and the device's callback registry stay as they are. *)
Definition async_remove (w : World) : World := w.

(** Registration [u] has been released and its handle forgotten. *)
Definition released (u : nat) (r : Subscription) (w : World) : Prop :=
  subs w !! u = Some r /\ active r = false /\ _unsub w ≠ Some u.

(** A transition that neither queries the capability nor touches its
    cache. *)
Definition query_free (w w' : World) : Prop :=
  _can_identify w' = _can_identify w
  /\ ncalls OpCanIdentify (calls w') = ncalls OpCanIdentify (calls w).

(** ** Scenarios

    Concrete devices and worlds on which the statements below are run. *)

(** A device in range that cannot identify, needs no authorization and
    accepts every provisioning call without a redirect. *)
Definition plain_device : Device :=
  mkDevice (λ _ a, Some (mkDiscoveryInfo a AUTHORIZED))
    (λ _, Returns false) (λ _, Returns tt) (λ _, Returns false)
    (λ _, Returns tt) (λ _ _ _, Returns None).

Definition with_can_identify (f : nat -> Outcome bool) (d : Device) : Device :=
  mkDevice (last_service_info d) f (identify d) (need_authorization d)
    (subscribe_state_updates d) (provision d).
Definition with_need_authorization (f : nat -> Outcome bool) (d : Device) : Device :=
  mkDevice (last_service_info d) (can_identify d) (identify d) f
    (subscribe_state_updates d) (provision d).
Definition with_provision (f : nat -> string -> string -> Outcome (option string))
    (d : Device) : Device :=
  mkDevice (last_service_info d) (can_identify d) (identify d)
    (need_authorization d) (subscribe_state_updates d) f.

Definition an_info : DiscoveryInfo := mkDiscoveryInfo "AA:BB" AUTHORIZED.

(** A confirmed flow with id 1 on device "AA:BB"; flows 2 and 3 are in
    progress as well, flow 2 for the same device. *)
Definition w_start : World :=
  fresh 1 (Some "AA:BB") an_info
    [mkFlowInfo 1 (Some "AA:BB"); mkFlowInfo 2 (Some "AA:BB");
     mkFlowInfo 3 (Some "CC:DD")].

Definition home_wifi : option UserInput := Some (mkUserInput "home" (Some "secret")).
Definition guest_wifi : option UserInput := Some (mkUserInput "guest" None).

(** The flow after the operator has entered "home"/"secret" on
    [plain_device]: provisioning task 0 is pending. *)
Definition w_provisioning : World :=
  run plain_device [Invoke start_improv None; Invoke provision_step home_wifi] w_start.

(** ... and after the loop has run that task. *)
Definition w_provisioned : World := run_task plain_device 0 w_provisioning.


(** A device that refuses the first provisioning call until authorized. *)
Definition unauthorized_device : Device :=
  with_provision
    (λ n _ _, match n with
              | 0 => Raises (ProvisioningFailed NOT_AUTHORIZED)
              | _ => Returns None
              end) plain_device.

(** A device that answers provisioning with a redirect. *)
Definition redirect_device : Device :=
  with_provision (λ _ _ _, Returns (Some "http://x/y")) plain_device.

(** The same flow as [w_provisioning], on [redirect_device]. *)
Definition w_redirecting : World :=
  run redirect_device [Invoke start_improv None; Invoke provision_step home_wifi]
    w_start.

(** A device that needs authorization at first. *)
Definition locked_device : Device :=
  with_need_authorization
    (λ n, match n with 0 => Returns true | _ => Returns false end) plain_device.

(** The flow on the provision form, no credentials entered yet. *)
Definition w_form : World := run plain_device [Invoke start_improv None] w_start.




(** A device that can never join the network it is given. *)
Definition unreachable_device : Device :=
  with_provision (λ _ _ _, Raises (ProvisioningFailed UNABLE_TO_CONNECT))
    plain_device.

(** First attempt: credentials entered, the provisioning task has run. *)
Definition first_attempt : list Action :=
  [Invoke start_improv None; Invoke provision_step home_wifi; RunTask 0].

(** The failure is delivered and the operator enters other credentials. *)
Definition resubmission : list Action :=
  [Invoke do_provision None; Invoke provision_done None;
   Invoke provision_step guest_wifi].

(** The flow waiting for authorization on [locked_device]: subscription 0 is
    registered, task 0 waits for its event. *)
Definition w_waiting : World :=
  (async_step_provision locked_device home_wifi w_form).2.

(** ... and once the device has reported that it is authorized. *)
Definition w_authorized : World := notify AUTHORIZED w_waiting.

(** * Further definitions *)

(** A device whose provisioning command fails with a plain
    [CommandFailed]. *)
Definition broken_device : Device :=
  with_provision (λ _ _ _, Raises CommandFailed) plain_device.


(** The manager showing the progress of provisioning task 0 on
    [broken_device], the task not yet run. *)
Definition m_provisioning : Managed :=
  manage broken_device [Configure None; Configure home_wifi]
    (confirmed 1 (Some "AA:BB") an_info []).

(** The manager shows the progress of a provisioning task that has failed
    with exception [e]. *)
Definition stuck (t : nat) (e : Exn) (m : Managed) : Prop :=
  cur_step m = Some do_provision
  /\ _provision_task (flow m) = Some t
  /\ tasks (flow m) !! t = Some (DoProvision, Failed e).

(** At most one registration is active, and it is the one whose handle the
    flow holds; the flow holds a handle only while it records an
    authorization wait. *)
Definition one_subscription (w : World) : Prop :=
  (_authorize_task w = None -> _unsub w = None)
  /\ forall u s, subs w !! u = Some s -> active s = true -> _unsub w = Some u.

(** One identify round trip from the main menu: the operator picks
    "identify", then confirms the identify form. *)
Definition identify_round (dev : Device) (ui : UserInput) (w : World) : World :=
  (async_step_identify dev (Some ui) (async_step_identify dev None w).2).2.

(** A device with the identify capability. *)
Definition blinking_device : Device :=
  with_can_identify (λ _, Returns true) plain_device.

(** The flow on the main menu of [blinking_device]. *)
Definition w_blinking : World :=
  run blinking_device [Invoke start_improv None] w_start.
(** * Properties *)

(** ** Reading fields through the loop primitives *)

Lemma task_status_lookup (w : World) (t : nat) (c : Coro) (s : TaskStatus) :
  tasks w !! t = Some (c, s) -> task_status w t = s.
Proof. unfold task_status. intros ->. reflexivity. Qed.

Lemma resume_status (w : World) (t : nat) (c : Coro) (s0 s : TaskStatus) :
  tasks w !! t = Some (c, s0) ->
  task_status (_resume_flow_when_done t s w) t = s
  /\ resumptions (_resume_flow_when_done t s w) = S (resumptions w).
Proof.
  intros H. unfold _resume_flow_when_done, task_status. rewrite H. cbn.
  rewrite list_lookup_insert_eq by (eapply lookup_lt_Some; exact H).
  split; reflexivity.
Qed.

(** [_do_provision] never returns without leaving a result behind. *)
Lemma do_provision_stores (dev : Device) (w w' : World) :
  _do_provision dev w = (BReturn, w') -> is_Some (_provision_result w').
Proof.
  unfold _do_provision.
  destruct (_credentials w) as [cred|]; [|discriminate].
  destruct (negb (_device w)); [discriminate|].
  destruct (_try_call _) as [[[|a s]|]|reason|e].
  1-4: intros [= <-]; cbn; eauto.
  destruct e; try discriminate.
  repeat case_bool_decide; try (intros [= <-]; cbn; eauto).
  unfold store_authorize.
  destruct (async_step_authorize _ _) as [[r|e|t] w1]; try discriminate.
  intros [= <-]; cbn; eauto.
Qed.

(** ** C10 *)

(** C10: once the provisioning task has settled, [async_step_do_provision]
    resets the task handle to [None] before it shows progress-done towards
    [provision_done]; [async_step_provision_done] returns the stored result
    and resets it to [None]; after that the result cannot be returned a second
    time (the step's assertion fails), and a new pass through
    [async_step_do_provision] starts a fresh, pending provisioning task. *)
Theorem C10_result_delivered_once (w : World) (t : nat) (r : FlowResult) :
  _provision_task w = Some t ->
  task_status w t = Done ->
  _provision_result w = Some r ->
  let w1 := (async_step_do_provision w).2 in
  let w2 := (async_step_provision_done w1).2 in
  let w3 := (async_step_do_provision w2).2 in
  (async_step_do_provision w).1 = Ret (async_show_progress_done "provision_done")
  /\ _provision_task w1 = None
  /\ (async_step_provision_done w1).1 = Ret r
  /\ _provision_result w2 = None
  /\ (async_step_provision_done w2).1 = Exc AssertionError
  /\ (async_step_provision_done w2).2 = w2
  /\ (async_step_do_provision w2).1 = Ret (async_show_progress "do_provision" "provisioning")
  /\ _provision_task w3 = Some (length (tasks w))
  /\ tasks w3 = tasks w ++ [(DoProvision, Pending)]
  /\ t < length (tasks w).
Proof.
  intros Ht Hs Hr. unfold async_step_do_provision at 1 2 3.
  rewrite Ht, Hs. cbn. unfold async_step_provision_done. cbn. rewrite Hr. cbn.
  repeat split.
  unfold task_status in Hs.
  destruct (tasks w !! t) as [[c s]|] eqn:E; [|discriminate].
  eapply lookup_lt_Some; exact E.
Qed.

Lemma C10_result_delivered_once_witness :
  _provision_task w_provisioned = Some 0
  /\ task_status w_provisioned 0 = Done
  /\ (async_step_provision_done (async_step_do_provision w_provisioned).2).1
     = Ret (async_abort "provision_successful" [])
  /\ _provision_result
       (async_step_provision_done (async_step_do_provision w_provisioned).2).2 = None.
Proof.
  assert (H1 : _provision_task w_provisioned = Some 0) by reflexivity.
  assert (H2 : task_status w_provisioned 0 = Done) by reflexivity.
  assert (H3 : _provision_result w_provisioned
               = Some (async_abort "provision_successful" [])) by reflexivity.
  pose proof (C10_result_delivered_once w_provisioned 0 _ H1 H2 H3) as H.
  cbv zeta in H. destruct H as (_ & _ & Hret & Hnone & _).
  exact (conj H1 (conj H2 (conj Hret Hnone))).
Defined.

(** ** Provisioning outcomes *)

Section Outcomes.
Variable dev : Device.
Variables (w : World) (cred : Credentials).
Hypothesis Hcred : _credentials w = Some cred.
Hypothesis Hdev : _device w = true.

(** The world after the body has issued its call to [provision]. *)
Let w1 : World := log_call (CProvision (ssid cred) (password cred)) w.
Let answer : Outcome (option string) :=
  provision dev (ncalls OpProvision (calls w)) (ssid cred) (password cred).

Lemma do_provision_unable_to_connect :
  answer = Raises (ProvisioningFailed UNABLE_TO_CONNECT) ->
  _do_provision dev w =
    (BReturn,
     set_provision_result
       (Some (async_show_form "provision" STEP_PROVISION_SCHEMA
                (Some [("base", "unable_to_connect")])))
       (set_credentials None w1)).
Proof.
  unfold answer, _do_provision. rewrite Hcred, Hdev. cbn. intros ->. reflexivity.
Qed.

Lemma do_provision_not_authorized :
  answer = Raises (ProvisioningFailed NOT_AUTHORIZED) ->
  _do_provision dev w = store_authorize (async_step_authorize dev w1).
Proof.
  unfold answer, _do_provision. rewrite Hcred, Hdev. cbn. intros ->. reflexivity.
Qed.

Lemma do_provision_success (redirect_url : option string) :
  answer = Returns redirect_url ->
  _do_provision dev w =
    (BReturn,
     set_provision_result
       (Some match redirect_url with
             | Some (String a s) =>
                 async_abort "provision_successful_url" [("url", String a s)]
             | _ => async_abort "provision_successful" []
             end)
       (abort_same_unique_id w1)).
Proof.
  unfold answer, _do_provision. rewrite Hcred, Hdev. cbn. intros ->.
  destruct redirect_url as [[|a s]|]; reflexivity.
Qed.

End Outcomes.



Lemma settle_calls (t : nat) (o : BodyOut * World) :
  calls (settle t o) = calls o.2.
Proof.
  destruct o as [[|e|on] w]; cbn; try reflexivity;
    unfold _resume_flow_when_done; destruct (tasks w !! t) as [[c s]|]; reflexivity.
Qed.

(** ** C3 *)


(** ** What the nested authorize step and the body leave alone *)

Ltac no_new_tasks := exists []; symmetry; apply app_nil_r.

Lemma unsubscribe_frame (u : nat) (w : World) :
  _credentials (unsubscribe u w) = _credentials w
  /\ _provision_task (unsubscribe u w) = _provision_task w
  /\ tasks (unsubscribe u w) = tasks w
  /\ resumptions (unsubscribe u w) = resumptions w
  /\ _can_identify (unsubscribe u w) = _can_identify w.
Proof. unfold unsubscribe. destruct (subs w !! u); cbn; auto. Qed.

Lemma authorize_frame (dev : Device) (w : World) :
  let w' := (async_step_authorize dev w).2 in
  _credentials w' = _credentials w
  /\ _provision_task w' = _provision_task w
  /\ (exists l, tasks w' = tasks w ++ l)
  /\ resumptions w' = resumptions w
  /\ _can_identify w' = _can_identify w.
Proof.
  unfold async_step_authorize.
  destruct (negb (_device w)); [cbn; repeat split; auto; no_new_tasks|].
  destruct (_authorize_task w) as [t|].
  - unfold authorize_join.
    destruct (task_status w t); cbn;
      try (repeat split; auto; no_new_tasks).
    destruct (_unsub w) as [u|]; cbn.
    + destruct (unsubscribe_frame u (set_authorize_task None w))
        as (H1 & H2 & H3 & H4 & H5).
      cbn in *. rewrite H1, H2, H3, H4, H5.
      repeat split; auto. no_new_tasks.
    + repeat split; auto. no_new_tasks.
  - destruct (_try_call _); cbn; repeat split; auto;
      try (no_new_tasks).
    eexists. reflexivity.
Qed.

Lemma do_provision_frame (dev : Device) (w : World) :
  let w' := (_do_provision dev w).2 in
  _provision_task w' = _provision_task w
  /\ (exists l, tasks w' = tasks w ++ l)
  /\ resumptions w' = resumptions w
  /\ _can_identify w' = _can_identify w.
Proof.
  unfold _do_provision.
  destruct (_credentials w) as [cred|];
    [|cbn; repeat split; auto; no_new_tasks].
  destruct (negb (_device w));
    [cbn; repeat split; auto; no_new_tasks|].
  destruct (_try_call _) as [[[|a s]|]|reason|e]; cbn;
    try (repeat split; auto; no_new_tasks).
  destruct e; cbn; try (repeat split; auto; no_new_tasks).
  repeat case_bool_decide; cbn;
    try (repeat split; auto; no_new_tasks).
  pose proof (authorize_frame dev
    (log_call (CProvision (ssid cred) (password cred)) w)) as Hauth.
  unfold store_authorize.
  destruct (async_step_authorize _ _) as [[r|e|t] w1]; cbn in *;
    destruct Hauth as (_ & H2 & H3 & H4 & H5); auto.
Qed.

(** A result the body stores reaches the interactive surface: the task
    settles with one resumption, [do_provision] answers progress-done and
    [provision_done] hands the stored result over. *)
Lemma provision_result_delivered (dev : Device) (w w' : World) (t : nat)
    (r : FlowResult) :
  tasks w !! t = Some (DoProvision, Pending) ->
  _provision_task w = Some t ->
  _do_provision dev w = (BReturn, w') ->
  _provision_result w' = Some r ->
  let v := run_task dev t w in
  task_status v t = Done
  /\ resumptions v = S (resumptions w)
  /\ (async_step_do_provision v).1 = Ret (async_show_progress_done "provision_done")
  /\ (async_step_provision_done (async_step_do_provision v).2).1 = Ret r.
Proof.
  intros Hl Ht Hb Hr v.
  pose proof (do_provision_frame dev w) as (F1 & (l & F2) & F3 & _).
  rewrite Hb in F1, F2, F3. cbn in F1, F2, F3.
  assert (Hl' : tasks w' !! t = Some (DoProvision, Pending)).
  { rewrite F2. apply lookup_app_l_Some. exact Hl. }
  assert (Ev : v = _resume_flow_when_done t Done w').
  { unfold v, run_task. rewrite Hl, Hb. reflexivity. }
  destruct (resume_status w' t _ _ Done Hl') as [S1 S2].
  rewrite <- Ev in S1, S2.
  assert (Hpt : _provision_task v = Some t).
  { rewrite Ev. unfold _resume_flow_when_done. rewrite Hl'. cbn. congruence. }
  assert (Hpr : _provision_result v = Some r).
  { rewrite Ev. unfold _resume_flow_when_done. rewrite Hl'. cbn. exact Hr. }
  unfold async_step_do_provision. rewrite Hpt, S1. cbn.
  unfold async_step_provision_done. cbn. rewrite Hpr. cbn.
  repeat split; congruence.
Qed.


(** ** C8 *)

(** C8: when the provisioning task's call to [provision] fails with
    [ProvisioningFailed(NOT_AUTHORIZED)], the body hands over to
    [async_step_authorize] and stores whatever that step answers; the stored
    credentials are the same afterwards.  If no authorization wait is in
    flight and the subscription succeeds, the flow is in the authorization
    wait: a subscription and a waiting task exist, the provisioning task
    settles normally, and the result delivered is the progress indicator of
    step "authorize", not an abort. *)
Theorem C8_not_authorized_redirects (dev : Device) (w : World)
    (cred : Credentials) (t : nat) :
  _credentials w = Some cred ->
  _device w = true ->
  _provision_task w = Some t ->
  tasks w !! t = Some (DoProvision, Pending) ->
  provision dev (ncalls OpProvision (calls w)) (ssid cred) (password cred)
    = Raises (ProvisioningFailed NOT_AUTHORIZED) ->
  let w1 := log_call (CProvision (ssid cred) (password cred)) w in
  let v := run_task dev t w in
  _do_provision dev w = store_authorize (async_step_authorize dev w1)
  /\ _credentials (_do_provision dev w).2 = Some cred
  /\ (_authorize_task w = None ->
      subscribe_state_updates dev (ncalls OpSubscribe (calls w)) = Returns tt ->
      _credentials v = Some cred
      /\ _unsub v = Some (length (subs w))
      /\ subs v = subs w ++ [mkSubscription true false 0]
      /\ _authorize_task v = Some (length (tasks w))
      /\ tasks v !! length (tasks w) = Some (EventWait (length (subs w)), Pending)
      /\ task_status v t = Done
      /\ resumptions v = S (resumptions w)
      /\ (async_step_do_provision v).1
         = Ret (async_show_progress_done "provision_done")
      /\ (async_step_provision_done (async_step_do_provision v).2).1
         = Ret (async_show_progress "authorize" "authorize")).
Proof.
  intros Hc Hd Ht Hl Hp w1 v.
  pose proof (do_provision_not_authorized dev w cred Hc Hd Hp) as Hb.
  fold w1 in Hb. split; [exact Hb|]. split.
  - rewrite Hb. pose proof (authorize_frame dev w1) as (F & _).
    unfold store_authorize.
    destruct (async_step_authorize dev w1) as [[r|e|t0] w2]; cbn in *;
      rewrite F; exact Hc.
  - intros Ha Hs.
    assert (Ea : async_step_authorize dev w1
      = (Ret (async_show_progress "authorize" "authorize"),
         set_authorize_task (Some (length (tasks w)))
           (set_tasks (tasks w ++ [(EventWait (length (subs w)), Pending)])
              (set_unsub (Some (length (subs w)))
                 (set_subs (subs w ++ [mkSubscription true false 0])
                    (log_call CSubscribe w1)))))).
    { unfold async_step_authorize. cbn. rewrite Hd, Ha. cbn. rewrite Hs.
      reflexivity. }
    rewrite Ea in Hb. cbn in Hb.
    pose proof (provision_result_delivered dev w _ t _ Hl Ht Hb eq_refl)
      as (D1 & D2 & D3 & D4).
    fold v in D1, D2, D3, D4.
    assert (Ev : v = _resume_flow_when_done t Done (_do_provision dev w).2).
    { unfold v, run_task. rewrite Hl, Hb. reflexivity. }
    rewrite Hb in Ev. unfold _resume_flow_when_done in Ev. cbn in Ev.
    rewrite (lookup_app_l_Some _ _ _ _ Hl) in Ev. cbn in Ev.
    assert (Hlt : t < length (tasks w)) by (eapply lookup_lt_Some; exact Hl).
    repeat match goal with |- _ /\ _ => split end; try assumption.
    + rewrite Ev. exact Hc.
    + rewrite Ev. reflexivity.
    + rewrite Ev. reflexivity.
    + rewrite Ev. reflexivity.
    + rewrite Ev. cbn. rewrite list_lookup_insert_ne by lia.
      apply list_lookup_middle. reflexivity.
Qed.

Lemma C8_not_authorized_redirects_witness :
  _credentials (run_task unauthorized_device 0 w_provisioning)
  = Some (mkCredentials "secret" "home")
  /\ (async_step_provision_done
        (async_step_do_provision (run_task unauthorized_device 0 w_provisioning)).2).1
     = Ret (async_show_progress "authorize" "authorize").
Proof.
  pose proof (C8_not_authorized_redirects unauthorized_device w_provisioning
                (mkCredentials "secret" "home") 0
                eq_refl eq_refl eq_refl eq_refl eq_refl) as H.
  cbv zeta in H. destruct H as (_ & _ & H).
  destruct (H eq_refl eq_refl) as (H1 & _ & _ & _ & _ & _ & _ & _ & H9).
  exact (conj H1 H9).
Defined.

(** ** C6 *)

Lemma same_unique_id_spec (w : World) (f : FlowInfo) :
  same_unique_id w f = true
  <-> fi_flow_id f ≠ flow_id w /\ unique_id w = fi_unique_id f.
Proof.
  unfold same_unique_id. rewrite andb_true_iff, !bool_decide_eq_true. tauto.
Qed.

Lemma resume_flows (t : nat) (s : TaskStatus) (w : World) :
  in_progress (_resume_flow_when_done t s w) = in_progress w
  /\ aborted (_resume_flow_when_done t s w) = aborted w.
Proof.
  unfold _resume_flow_when_done. destruct (tasks w !! t) as [[c s0]|]; auto.
Qed.

(** C6: when the provisioning task's call to [provision] returns, every
    in-progress flow other than this one whose unique id equals this flow's is
    handed to [flow.async_abort] and leaves the flows in progress, no other
    flow is touched, and the result delivered through [do_provision] and
    [provision_done] is terminal: with a non-empty redirect URL it has reason
    "provision_successful_url" and carries the URL under "url" in its
    placeholders; without one ([None] or the empty string) it is the plain
    "provision_successful". *)
Theorem C6_success_terminates_and_cancels (dev : Device) (w : World)
    (cred : Credentials) (t : nat) (redirect_url : option string) :
  _credentials w = Some cred ->
  _device w = true ->
  _provision_task w = Some t ->
  tasks w !! t = Some (DoProvision, Pending) ->
  provision dev (ncalls OpProvision (calls w)) (ssid cred) (password cred)
    = Returns redirect_url ->
  let v := run_task dev t w in
  let delivered :=
    (async_step_provision_done (async_step_do_provision v).2).1 in
  (forall url, redirect_url = Some url -> url ≠ EmptyString ->
     delivered = Ret (async_abort "provision_successful_url" [("url", url)]))
  /\ (redirect_url = None \/ redirect_url = Some EmptyString ->
      delivered = Ret (async_abort "provision_successful" []))
  /\ (forall f, f ∈ in_progress w ->
        fi_flow_id f ≠ flow_id w -> fi_unique_id f = unique_id w ->
        fi_flow_id f ∈ aborted v /\ f ∉ in_progress v)
  /\ (forall f, f ∈ in_progress w ->
        fi_flow_id f = flow_id w \/ fi_unique_id f ≠ unique_id w ->
        f ∈ in_progress v)
  /\ (forall i, i ∈ aborted v ->
        i ∈ aborted w
        \/ exists f, f ∈ in_progress w /\ fi_flow_id f = i
                     /\ i ≠ flow_id w /\ fi_unique_id f = unique_id w).
Proof.
  intros Hc Hd Ht Hl Hp v delivered.
  pose proof (do_provision_success dev w cred Hc Hd redirect_url Hp) as Hb.
  pose proof (provision_result_delivered dev w _ t _ Hl Ht Hb eq_refl)
    as (_ & _ & _ & D).
  fold v in D. fold delivered in D.
  assert (Ev : v = _resume_flow_when_done t Done (_do_provision dev w).2).
  { unfold v, run_task. rewrite Hl, Hb. reflexivity. }
  destruct (resume_flows t Done (_do_provision dev w).2) as [Ep Ea].
  rewrite <- Ev, Hb in Ep, Ea. cbn in Ep, Ea.
  split; [|split; [|split; [|split]]].
  - intros url -> Hne. rewrite D. destruct url; [congruence|reflexivity].
  - intros [-> | ->]; exact D.
  - intros f Hin Hother Hsame. rewrite Ep, Ea. split.
    + apply elem_of_app. right. apply list_elem_of_fmap_2.
      apply list_elem_of_filter. split; [|exact Hin].
      apply same_unique_id_spec. cbn. auto.
    + rewrite list_elem_of_filter. intros [Hf _].
      assert (same_unique_id w f = true) as Hs
        by (apply same_unique_id_spec; auto).
      unfold same_unique_id in *. cbn in Hf. congruence.
  - intros f Hin Hcase. rewrite Ep. apply list_elem_of_filter.
    split; [|exact Hin].
    destruct (same_unique_id w f) eqn:E.
    + apply same_unique_id_spec in E. destruct E as [E1 E2].
      destruct Hcase; congruence.
    + unfold same_unique_id in *. cbn. exact E.
  - intros i Hi. rewrite Ea in Hi. apply elem_of_app in Hi.
    destruct Hi as [Hi | Hi]; [left; exact Hi|right].
    apply list_elem_of_fmap in Hi. destruct Hi as (f & -> & Hf).
    apply list_elem_of_filter in Hf. destruct Hf as [Hs Hin].
    exists f.
    assert (same_unique_id w f = true) as Hs' by exact Hs.
    apply same_unique_id_spec in Hs'. destruct Hs'. auto.
Qed.

Lemma C6_success_terminates_and_cancels_witness :
  (async_step_provision_done
     (async_step_do_provision (run_task redirect_device 0 w_redirecting)).2).1
  = Ret (async_abort "provision_successful_url" [("url", "http://x/y")])
  /\ 2 ∈ aborted (run_task redirect_device 0 w_redirecting).
Proof.
  pose proof (C6_success_terminates_and_cancels redirect_device w_redirecting
                (mkCredentials "secret" "home") 0 (Some "http://x/y")
                eq_refl eq_refl eq_refl eq_refl eq_refl) as H.
  cbv zeta in H. destruct H as (H1 & _ & H3 & _).
  split.
  - apply (H1 _ eq_refl). discriminate.
  - apply (H3 (mkFlowInfo 2 (Some "AA:BB"))).
    + apply list_elem_of_In. right. left. reflexivity.
    + cbn. discriminate.
    + reflexivity.
Defined.

(** ** Tasks in flight *)


(** A transition that creates no task and unsettles none keeps [tracked],
    provided every handle that changes pointed to a settled task. *)
Lemma tracked_shrink (w w' : World) :
  tracked w ->
  (forall i k, in_flight w' i k -> in_flight w i k) ->
  (forall i k, in_flight w' i k -> handle k w = Some i -> handle k w' = Some i) ->
  tracked w'.
Proof. intros T H1 H2 i k Hin. apply H2; [exact Hin|]. apply T, H1, Hin. Qed.

Lemma tracked_same (w w' : World) :
  tasks w' = tasks w ->
  _authorize_task w' = _authorize_task w ->
  _provision_task w' = _provision_task w ->
  tracked w -> tracked w'.
Proof.
  intros Et Ea Ep T. apply (tracked_shrink w w' T).
  - intros i k (c & s & H). exists c, s. rewrite <- Et. exact H.
  - intros i [] _; cbn; congruence.
Qed.



(** Changing the status of one task without unsettling it. *)
Lemma tracked_update (w w' : World) (t : nat) (c : Coro) (s0 s : TaskStatus) :
  tracked w ->
  tasks w !! t = Some (c, s0) ->
  (unsettled s = true -> unsettled s0 = true) ->
  tasks w' = <[t := (c, s)]> (tasks w) ->
  _authorize_task w' = _authorize_task w ->
  _provision_task w' = _provision_task w ->
  tracked w'.
Proof.
  intros T Hl Hs Et Ea Ep. apply (tracked_shrink w w' T).
  - intros i k (c' & s' & Hl' & Hk & Hu). rewrite Et in Hl'.
    destruct (decide (t = i)) as [->|Hne].
    + rewrite list_lookup_insert_eq in Hl' by (eapply lookup_lt_Some; exact Hl).
      injection Hl' as <- <-. exists c, s0. auto.
    + rewrite list_lookup_insert_ne in Hl' by exact Hne. exists c', s'. auto.
  - intros i [] _; cbn; congruence.
Qed.

Lemma tracked_resume (t : nat) (s : TaskStatus) (w : World) :
  unsettled s = false -> tracked w -> tracked (_resume_flow_when_done t s w).
Proof.
  intros Hs T. unfold _resume_flow_when_done.
  destruct (tasks w !! t) as [[c s0]|] eqn:E; [|exact T].
  refine (tracked_update w _ t c s0 s T E _ _ _ _); [congruence|reflexivity..].
Qed.

Ltac same_tasks T := refine (tracked_same _ _ _ _ _ T); reflexivity.












(** ** Resumptions and settled tasks *)


Lemma settled_insert (l : list Task) (t : nat) (c c' : Coro) (s0 s : TaskStatus) :
  l !! t = Some (c, s0) ->
  settled (<[t := (c', s)]> l) + (if unsettled s0 then 0 else 1)
  = settled l + (if unsettled s then 0 else 1).
Proof.
  revert t. induction l as [|[c1 s1] l IH]; intros [|t] H; try discriminate.
  - cbn in *. injection H as -> ->.
    destruct (unsettled s), (unsettled s0); lia.
  - specialize (IH t H). revert IH.
    change (<[S t := (c', s)]> ((c1, s1) :: l)) with ((c1, s1) :: <[t := (c', s)]> l).
    cbn [settled].
    destruct (unsettled s), (unsettled s0), (unsettled s1); lia.
Qed.

Lemma quiet_refl (w : World) : quiet w w.
Proof. split; reflexivity. Qed.
















Lemma quiet_balanced (w w' : World) : quiet w w' -> balanced w w'.
Proof. intros [A B]. unfold balanced. lia. Qed.

Lemma balanced_trans (w1 w2 w3 : World) :
  balanced w1 w2 -> balanced w2 w3 -> balanced w1 w3.
Proof. unfold balanced. lia. Qed.

(** Settling a task in flight: one resumption, one more settled task. *)
Lemma balanced_resume (w : World) (t : nat) (c : Coro) (s0 s : TaskStatus) :
  tasks w !! t = Some (c, s0) -> unsettled s0 = true -> unsettled s = false ->
  balanced w (_resume_flow_when_done t s w).
Proof.
  intros Hl H0 Hs. unfold balanced, _resume_flow_when_done. rewrite Hl. cbn.
  pose proof (settled_insert (tasks w) t c c s0 s Hl) as E.
  rewrite H0, Hs in E. lia.
Qed.

Lemma join_tasks (t : nat) (w : World) :
  tasks (authorize_join t w).2 = tasks w
  /\ _provision_task (authorize_join t w).2 = _provision_task w.
Proof.
  unfold authorize_join. destruct (task_status w t); cbn; auto.
  destruct (_unsub w) as [u|]; cbn; auto.
  destruct (unsubscribe_frame u (set_authorize_task None w)) as (_ & H2 & H3 & _).
  auto.
Qed.

Lemma store_authorize_tasks (o : StepOut * World) :
  tasks (store_authorize o).2 = tasks o.2.
Proof. destruct o as [[r|e|t] w]; reflexivity. Qed.




(** ** Notifications *)

Lemma woken_refl (w : World) : woken w w.
Proof. unfold woken. repeat split; auto. Qed.

Lemma woken_trans (w1 w2 w3 : World) : woken w1 w2 -> woken w2 w3 -> woken w1 w3.
Proof.
  intros (A1 & A2 & A3 & A4 & A5 & A6 & A8 & A7)
         (B1 & B2 & B3 & B4 & B5 & B6 & B8 & B7).
  unfold woken. repeat split; try congruence.
  intros j c s H. destruct (B7 j c s H) as [H2 | (ev & -> & -> & H2)].
  - apply A7, H2.
  - destruct (A7 _ _ _ H2) as [H1 | (ev' & _ & [=] & _)]. right. eauto.
Qed.

Lemma woken_resume (w : World) (i ev : nat) :
  tasks w !! i = Some (EventWait ev, Pending) ->
  woken w (_resume_flow_when_done i Done w).
Proof.
  intros Hl. unfold woken, _resume_flow_when_done. rewrite Hl. cbn.
  repeat split; auto using length_insert. intros j c s H.
  destruct (decide (i = j)) as [->|Hne].
  - rewrite list_lookup_insert_eq in H by (eapply lookup_lt_Some; exact Hl).
    injection H as <- <-. right. eauto.
  - rewrite list_lookup_insert_ne in H by exact Hne. left. exact H.
Qed.

Lemma wakes_pending (ss : list Subscription) (t : Task) :
  wakes ss t = true -> exists ev, t = (EventWait ev, Pending).
Proof. destruct t as [[|ev] []]; cbn; try discriminate. eauto. Qed.

Lemma wake_from_ok (ts : list Task) (i : nat) (w : World) :
  drop i (tasks w) = ts ->
  balanced w (wake_from i ts w)
  /\ woken w (wake_from i ts w)
  /\ (tracked w -> tracked (wake_from i ts w)).
Proof.
  revert i w. induction ts as [|t ts IH]; intros i w Hd; cbn.
  - split; [apply quiet_balanced, quiet_refl|]. split; [apply woken_refl|auto].
  - assert (Hl : tasks w !! i = Some t).
    { rewrite <- (Nat.add_0_r i), <- lookup_drop, Hd. reflexivity. }
    assert (Hd' : drop (S i) (tasks w) = ts).
    { rewrite (drop_S _ _ _ Hl) in Hd. congruence. }
    destruct (wakes (subs w) t) eqn:Ew.
    + destruct (wakes_pending _ _ Ew) as [ev ->].
      set (w1 := _resume_flow_when_done i Done w).
      assert (Hd1 : drop (S i) (tasks w1) = ts).
      { unfold w1, _resume_flow_when_done. rewrite Hl. cbn.
        rewrite drop_insert_lt by lia. exact Hd'. }
      destruct (IH (S i) w1 Hd1) as (B & W & T).
      split; [|split].
      * refine (balanced_trans _ _ _ _ B).
        eapply balanced_resume; eauto.
      * exact (woken_trans _ _ _ (woken_resume w i ev Hl) W).
      * intros T0. apply T. apply tracked_resume; [reflexivity|exact T0].
    + apply (IH (S i) w Hd').
Qed.

Lemma notify_ok (state : State) (w : World) :
  balanced w (notify state w)
  /\ woken w (notify state w)
  /\ (tracked w -> tracked (notify state w)).
Proof.
  unfold notify.
  set (w1 := set_subs (on_state_update state <$> subs w) w).
  destruct (wake_from_ok (tasks w1) 0 w1 eq_refl) as (B & W & T).
  split; [exact B|]. split; [exact W|].
  intros T0. apply T. same_tasks T0.
Qed.

(** ** Steps only add pending tasks *)
















(** ** The manager's discipline *)

















(** ** C1 *)



(** ** The authorization wait under notifications *)

Lemma wake_from_none (ts : list Task) (i : nat) (w : World) :
  Forall (λ t, wakes (subs w) t = false) ts -> wake_from i ts w = w.
Proof.
  revert i. induction ts as [|t ts IH]; intros i F; [reflexivity|].
  cbn. inversion F as [|? ? Ht Fts]; subst. rewrite Ht. apply IH, Fts.
Qed.

Lemma wake_from_last (ts0 : list Task) (t : Task) (w : World) :
  Forall deaf ts0 ->
  wake_from 0 (ts0 ++ [t]) w
  = if wakes (subs w) t then _resume_flow_when_done (length ts0) Done w else w.
Proof.
  intros F.
  assert (G : forall i, wake_from i (ts0 ++ [t]) w
                        = wake_from (i + length ts0) [t] w).
  { induction F as [|x l Hx F IH]; intros i; cbn [app length].
    - rewrite Nat.add_0_r. reflexivity.
    - cbn [wake_from]. rewrite (Hx (subs w)), IH.
      replace (i + S (length l)) with (S i + length l) by lia. reflexivity. }
  rewrite G. reflexivity.
Qed.

Lemma tracked_deaf (w : World) :
  tracked w -> _authorize_task w = None -> Forall deaf (tasks w).
Proof.
  intros T Ha. apply Forall_lookup. intros i [c s] Hl ss.
  destruct c as [|ev]; [reflexivity|]. destruct s; try reflexivity.
  assert (Hin : in_flight w i AuthorizationWait)
    by (exists (EventWait ev), Pending; auto).
  apply T in Hin. cbn in Hin. congruence.
Qed.

(** A notification in a world whose last task is the only wait in flight. *)
Lemma notify_wait (state : State) (w : World) (ts0 : list Task)
    (ss : list Subscription) (sb : Subscription) :
  tasks w = ts0 ++ [(EventWait (length ss), Pending)] ->
  subs w = ss ++ [sb] ->
  Forall deaf ts0 ->
  notify state w =
    let w' := set_subs ((on_state_update state <$> ss)
                          ++ [on_state_update state sb]) w in
    if event_set (on_state_update state sb)
    then set_resumptions (S (resumptions w))
           (set_tasks (ts0 ++ [(EventWait (length ss), Done)]) w')
    else w'.
Proof.
  intros Et Es F. unfold notify. rewrite Es, fmap_app. cbn [fmap list_fmap].
  set (w' := set_subs _ w). cbn zeta.
  change (tasks w') with (tasks w). rewrite Et, (wake_from_last _ _ _ F).
  unfold wakes.
  assert (Hs : subs w' !! length ss = Some (on_state_update state sb)).
  { unfold w'. cbn. apply list_lookup_middle. rewrite length_fmap. reflexivity. }
  rewrite Hs. destruct (event_set (on_state_update state sb)); [|reflexivity].
  unfold _resume_flow_when_done. change (tasks w') with (tasks w).
  rewrite Et, list_lookup_middle by reflexivity.
  rewrite insert_app_r_alt by lia. rewrite Nat.sub_diag. reflexivity.
Qed.

(** ** C2 *)

(** C2: the operator submits credentials, [need_authorization] answers true
    and the subscription succeeds, so the authorization wait starts.  Two
    notifications with state authorization-required change nothing: the wait
    stays in flight and no resumption is scheduled.  The third, with a state
    other than authorization-required, completes the wait and schedules exactly
    one resumption.  The resumed authorize step calls the unsubscribe handle
    once, forgets it and the task, and answers progress-done towards step
    "provision"; from then on a notification reaches no callback, wakes no
    task and schedules nothing.  The provision step that follows, the device
    no longer asking for authorization, starts one provisioning task. *)
Theorem C2_third_notification_completes_wait (dev : Device) (w0 : World)
    (ui : UserInput) :
  _device w0 = true ->
  tracked w0 ->
  _authorize_task w0 = None ->
  _provision_task w0 = None ->
  need_authorization dev (ncalls OpNeedAuthorization (calls w0)) = Returns true ->
  subscribe_state_updates dev (ncalls OpSubscribe (calls w0)) = Returns tt ->
  let a := length (tasks w0) in
  let u := length (subs w0) in
  let w1 := (async_step_provision dev (Some ui) w0).2 in
  let w2 := notify AUTHORIZATION_REQUIRED w1 in
  let w3 := notify AUTHORIZATION_REQUIRED w2 in
  let w4 := notify AUTHORIZED w3 in
  let w5 := (async_step_authorize dev w4).2 in
  (async_step_provision dev (Some ui) w0).1
    = Ret (async_show_progress "authorize" "authorize")
  /\ (in_flight w1 a AuthorizationWait /\ resumptions w1 = resumptions w0)
  /\ (in_flight w2 a AuthorizationWait /\ resumptions w2 = resumptions w0)
  /\ (in_flight w3 a AuthorizationWait /\ resumptions w3 = resumptions w0)
  /\ (task_status w4 a = Done /\ resumptions w4 = S (resumptions w0))
  /\ (async_step_authorize dev w4).1 = Ret (async_show_progress_done "provision")
  /\ _authorize_task w5 = None
  /\ _unsub w5 = None
  /\ subs w5 !! u = Some (mkSubscription false true 1)
  /\ (forall state,
        tasks (notify state w5) = tasks w5
        /\ resumptions (notify state w5) = S (resumptions w0)
        /\ subs (notify state w5) !! u = Some (mkSubscription false true 1))
  /\ (need_authorization dev (S (ncalls OpNeedAuthorization (calls w0)))
        = Returns false ->
      (async_step_provision dev None w5).1
        = Ret (async_show_progress "do_provision" "provisioning")
      /\ tasks (async_step_provision dev None w5).2
         = tasks w5 ++ [(DoProvision, Pending)]
      /\ forall i, in_flight (async_step_provision dev None w5).2 i
                     ProvisioningAttempt -> i = S a).
Proof.
  intros Hd T Ha Hp Hn Hs a u w1 w2 w3 w4 w5.
  pose proof (tracked_deaf w0 T Ha) as F.
  set (cred := mkCredentials (default EmptyString (ui_password ui)) (ui_ssid ui)).
  set (base := log_call CSubscribe
                 (log_call CNeedAuthorization (set_credentials (Some cred) w0))).
  set (sb := mkSubscription true false 0).
  assert (E1 : async_step_provision dev (Some ui) w0
               = (Ret (async_show_progress "authorize" "authorize"),
                  set_authorize_task (Some a)
                    (set_tasks (tasks w0 ++ [(EventWait u, Pending)])
                       (set_unsub (Some u)
                          (set_subs (subs w0 ++ [sb]) base))))).
  { unfold async_step_provision. rewrite Hd. cbn. rewrite Hn. cbn.
    unfold async_step_authorize. cbn. rewrite Hd, Ha. cbn. rewrite Hs.
    reflexivity. }
  assert (Ew1 : w1 = set_authorize_task (Some a)
                    (set_tasks (tasks w0 ++ [(EventWait u, Pending)])
                       (set_unsub (Some u)
                          (set_subs (subs w0 ++ [sb]) base))))
    by (unfold w1; rewrite E1; reflexivity).
  clearbody w1.
  (* the notifications *)
  assert (Quiet : forall w ss,
            length ss = u ->
            tasks w = tasks w0 ++ [(EventWait u, Pending)] ->
            subs w = ss ++ [sb] ->
            notify AUTHORIZATION_REQUIRED w
            = set_subs ((on_state_update AUTHORIZATION_REQUIRED <$> ss) ++ [sb]) w).
  { intros w ss Hl Et Es. rewrite <- Hl in Et.
    rewrite (notify_wait _ w _ ss sb Et Es F). reflexivity. }
  set (ss1 := on_state_update AUTHORIZATION_REQUIRED <$> subs w0).
  set (ss2 := on_state_update AUTHORIZATION_REQUIRED <$> ss1).
  set (ss3 := on_state_update AUTHORIZED <$> ss2).
  assert (L1 : length ss1 = u) by (unfold ss1; apply length_fmap).
  assert (L2 : length ss2 = u) by (unfold ss2; rewrite length_fmap; exact L1).
  assert (L3 : length ss3 = u) by (unfold ss3; rewrite length_fmap; exact L2).
  assert (Ew2 : w2 = set_subs (ss1 ++ [sb]) w1).
  { unfold w2. rewrite (Quiet w1 (subs w0) eq_refl); [reflexivity| |];
      rewrite Ew1; reflexivity. }
  clearbody w2.
  assert (Ew3 : w3 = set_subs (ss2 ++ [sb]) w2).
  { unfold w3. rewrite (Quiet w2 ss1 L1); [reflexivity| |];
      rewrite Ew2, Ew1; reflexivity. }
  clearbody w3.
  assert (Ew4 : w4 = set_resumptions (S (resumptions w0))
                       (set_tasks (tasks w0 ++ [(EventWait u, Done)])
                          (set_subs (ss3 ++ [mkSubscription true true 0]) w3))).
  { unfold w4.
    assert (Et : tasks w3 = tasks w0 ++ [(EventWait (length ss2), Pending)])
      by (rewrite L2, Ew3, Ew2, Ew1; reflexivity).
    assert (Es : subs w3 = ss2 ++ [sb]) by (rewrite Ew3; reflexivity).
    rewrite (notify_wait _ w3 _ ss2 sb Et Es F). cbv zeta.
    change (event_set (on_state_update AUTHORIZED sb)) with true. cbv iota.
    rewrite L2.
    replace (resumptions w3) with (resumptions w0)
      by (rewrite Ew3, Ew2, Ew1; reflexivity).
    reflexivity. }
  clearbody w4.
  assert (Hu4 : subs w4 !! u = Some (mkSubscription true true 0)).
  { rewrite Ew4. cbn. apply list_lookup_middle. symmetry. exact L3. }
  assert (Hs4 : task_status w4 a = Done).
  { rewrite Ew4. unfold task_status. cbn.
    rewrite list_lookup_middle by reflexivity. reflexivity. }
  assert (E5 : async_step_authorize dev w4
               = (Ret (async_show_progress_done "provision"),
                  set_unsub None
                    (set_subs (ss3 ++ [mkSubscription false true 1])
                       (set_authorize_task None w4)))).
  { unfold async_step_authorize.
    replace (_device w4) with true
      by (rewrite Ew4, Ew3, Ew2, Ew1; cbn; congruence).
    replace (_authorize_task w4) with (Some a)
      by (rewrite Ew4, Ew3, Ew2, Ew1; reflexivity).
    cbn. unfold authorize_join. rewrite Hs4.
    replace (_unsub (set_authorize_task None w4)) with (Some u)
      by (rewrite Ew4, Ew3, Ew2, Ew1; reflexivity).
    unfold unsubscribe.
    change (subs (set_authorize_task None w4)) with (subs w4). rewrite Hu4.
    do 2 f_equal. cbn. f_equal.
    rewrite Ew4. cbn. rewrite <- L3.
    rewrite insert_app_r_alt by lia. rewrite Nat.sub_diag. reflexivity. }
  assert (Ew5 : w5 = set_unsub None
                    (set_subs (ss3 ++ [mkSubscription false true 1])
                       (set_authorize_task None w4)))
    by (unfold w5; rewrite E5; reflexivity).
  clearbody w5.
  assert (Et5 : tasks w5 = tasks w0 ++ [(EventWait u, Done)])
    by (rewrite Ew5, Ew4; reflexivity).
  assert (F5 : Forall deaf (tasks w5)).
  { rewrite Et5. apply Forall_app. split; [exact F|].
    constructor; [intros ss; reflexivity|constructor]. }
  assert (Hflight : forall w, tasks w = tasks w0 ++ [(EventWait u, Pending)] ->
                              in_flight w a AuthorizationWait).
  { intros w Et. exists (EventWait u), Pending. rewrite Et.
    split; [apply list_lookup_middle; reflexivity|]. split; reflexivity. }
  split; [exact (f_equal fst E1)|].
  split; [split; [apply Hflight|]; rewrite Ew1; reflexivity|].
  split; [split; [apply Hflight|]; rewrite Ew2, Ew1; reflexivity|].
  split; [split; [apply Hflight|]; rewrite Ew3, Ew2, Ew1; reflexivity|].
  split; [split; [exact Hs4|rewrite Ew4; reflexivity]|].
  split; [rewrite E5; reflexivity|].
  split; [rewrite Ew5; reflexivity|].
  split; [rewrite Ew5; reflexivity|].
  split; [rewrite Ew5; cbn; apply list_lookup_middle; symmetry; exact L3|].
  split.
  - intros state. unfold notify.
    set (w' := set_subs _ w5).
    assert (Fw : Forall (λ t, wakes (subs w') t = false) (tasks w')).
    { change (tasks w') with (tasks w5).
      eapply Forall_impl; [exact F5|]. intros t Ht. apply Ht. }
    rewrite (wake_from_none _ _ _ Fw). unfold w'. cbn.
    split; [reflexivity|]. split; [rewrite Ew5, Ew4; reflexivity|].
    rewrite Ew5. cbn. rewrite fmap_app. cbn.
    apply list_lookup_middle. rewrite length_fmap. symmetry. exact L3.
  - intros Hn'.
    assert (E6 : async_step_provision dev None w5
                 = (Ret (async_show_progress "do_provision" "provisioning"),
                    set_provision_task (Some (length (tasks w5)))
                      (set_tasks (tasks w5 ++ [(DoProvision, Pending)])
                         (log_call CNeedAuthorization w5)))).
    { unfold async_step_provision.
      replace (_device w5) with true
        by (rewrite Ew5, Ew4, Ew3, Ew2, Ew1; cbn; congruence).
      replace (_credentials w5) with (Some cred)
        by (rewrite Ew5, Ew4, Ew3, Ew2, Ew1; reflexivity).
      cbn.
      replace (calls w5) with (CSubscribe :: CNeedAuthorization :: calls w0)
        by (rewrite Ew5, Ew4, Ew3, Ew2, Ew1; reflexivity).
      cbn. rewrite Hn'. cbn. unfold async_step_do_provision.
      replace (_provision_task (log_call CNeedAuthorization w5)) with (@None nat)
        by (rewrite Ew5, Ew4, Ew3, Ew2, Ew1; cbn; congruence).
      reflexivity. }
    rewrite E6. cbn. split; [reflexivity|]. split; [reflexivity|].
    intros i (c & s & Hl & Hk & Hu). cbn in Hl.
    apply lookup_app_Some in Hl. destruct Hl as [Hl | [Hge Hl]].
    + exfalso. pose proof (Forall_lookup_1 _ _ _ _ F5 Hl) as Hdeaf.
      rewrite Et5 in Hl. apply lookup_app_Some in Hl.
      destruct Hl as [Hl | [_ Hl]].
      * assert (Hin : in_flight w0 i ProvisioningAttempt) by (exists c, s; auto).
        apply T in Hin. cbn in Hin. congruence.
      * destruct (i - length (tasks w0)) as [|n]; [|destruct n; discriminate].
        injection Hl as <- <-. discriminate.
    + rewrite Et5, length_app in Hge. cbn in Hge.
      apply lookup_lt_Some in Hl. cbn in Hl.
      rewrite Et5, length_app in Hl. cbn in Hl. unfold a. lia.
Qed.

Lemma tracked_no_tasks (w : World) : tasks w = [] -> tracked w.
Proof. intros E i k (c & s & H & _). rewrite E in H. destruct i; discriminate. Qed.

Lemma C2_third_notification_completes_wait_witness :
  let w1 := (async_step_provision locked_device home_wifi w_form).2 in
  let w4 := notify AUTHORIZED
              (notify AUTHORIZATION_REQUIRED (notify AUTHORIZATION_REQUIRED w1)) in
  resumptions (notify AUTHORIZATION_REQUIRED (notify AUTHORIZATION_REQUIRED w1)) = 0
  /\ resumptions w4 = 1
  /\ (async_step_authorize locked_device w4).1
     = Ret (async_show_progress_done "provision").
Proof.
  intros w1 w4.
  pose proof (C2_third_notification_completes_wait locked_device w_form
                (mkUserInput "home" (Some "secret"))
                eq_refl (tracked_no_tasks w_form eq_refl) eq_refl eq_refl
                eq_refl eq_refl) as H.
  cbv zeta in H. destruct H as (_ & _ & _ & [_ H3] & [_ H4] & H5 & _).
  exact (conj H3 (conj H4 H5)).
Defined.

(** ** C4 *)





(** ** C9 *)

(** C9 fails as stated: on a device that keeps answering unable-to-connect
    the credentials are cleared after the first attempt, stored again when the
    operator resubmits, and cleared a second time after the second attempt. *)
Lemma C9_counterexample :
  _credentials (run unreachable_device first_attempt w_start) = None
  /\ _credentials (run unreachable_device (first_attempt ++ resubmission) w_start)
     = Some (mkCredentials EmptyString "guest")
  /\ _credentials
       (run unreachable_device (first_attempt ++ resubmission ++ [RunTask 1]) w_start)
     = None.
Proof. repeat split; reflexivity. Qed.

Lemma credentials_authorize (dev : Device) (w : World) :
  _credentials (async_step_authorize dev w).2 = _credentials w.
Proof. apply (authorize_frame dev w). Qed.

Lemma credentials_do_provision_step (w : World) :
  _credentials (async_step_do_provision w).2 = _credentials w.
Proof.
  unfold async_step_do_provision. destruct (_provision_task w) as [t|];
    [destruct (task_status w t)|]; reflexivity.
Qed.

Lemma credentials_provision_none (dev : Device) (w : World) :
  _credentials (async_step_provision dev None w).2 = _credentials w.
Proof.
  unfold async_step_provision.
  destruct (negb (_device w)); [reflexivity|].
  destruct (_credentials w) as [c|] eqn:E; [|exact E].
  destruct (_try_call _) as [[]| |]; cbn; try exact E.
  - rewrite credentials_authorize. exact E.
  - rewrite credentials_do_provision_step. exact E.
Qed.

Lemma credentials_provision_some (dev : Device) (ui : UserInput) (w : World) :
  _device w = true ->
  _credentials (async_step_provision dev (Some ui) w).2
  = Some (mkCredentials (default EmptyString (ui_password ui)) (ui_ssid ui)).
Proof.
  intros Hd. unfold async_step_provision. rewrite Hd. cbn.
  destruct (_try_call _) as [[]| |]; cbn; try reflexivity.
  - rewrite credentials_authorize. reflexivity.
  - rewrite credentials_do_provision_step. reflexivity.
Qed.

Lemma credentials_start_improv (dev : Device) (w : World) :
  _credentials (async_step_start_improv dev w).2 = _credentials w.
Proof.
  unfold async_step_start_improv.
  destruct (_discovery_info w) as [old|]; [|reflexivity].
  destruct (last_service_info dev _ _) as [di|]; [|reflexivity].
  destruct (already_provisioned _); [reflexivity|].
  set (w1 := set_discovery_info _ _).
  set (w2 := if _device w1 then w1 else set_device true w1).
  assert (E2 : _credentials w2 = _credentials w)
    by (unfold w2; destruct (_device w1); reflexivity).
  destruct (_can_identify w2) as [b|].
  - destruct b; [exact E2|]. rewrite credentials_provision_none. exact E2.
  - destruct (_try_call _) as [[]| |]; cbn; try exact E2.
    rewrite credentials_provision_none. exact E2.
Qed.

Lemma credentials_step (dev : Device) (s : StepId) (ui : option UserInput)
    (w : World) :
  _credentials (step dev s ui w).2 = _credentials w
  \/ exists i, s = provision_step /\ ui = Some i
       /\ _credentials (step dev s ui w).2
          = Some (mkCredentials (default EmptyString (ui_password i)) (ui_ssid i)).
Proof.
  destruct s; cbn.
  - left. apply credentials_start_improv.
  - left. reflexivity.
  - left. unfold async_step_identify.
    destruct (negb (_device w)); [reflexivity|].
    destruct ui; [apply credentials_start_improv|].
    destruct (_try_call _); reflexivity.
  - destruct ui as [i|]; [|left; apply credentials_provision_none].
    destruct (_device w) eqn:Hd.
    + right. exists i. auto using credentials_provision_some.
    + left. unfold async_step_provision. rewrite Hd. reflexivity.
  - left. apply credentials_do_provision_step.
  - left. unfold async_step_provision_done.
    destruct (_provision_result w); reflexivity.
  - left. apply credentials_authorize.
Qed.

Lemma credentials_resume (t : nat) (s : TaskStatus) (w : World) :
  _credentials (_resume_flow_when_done t s w) = _credentials w.
Proof.
  unfold _resume_flow_when_done. destruct (tasks w !! t) as [[c s0]|]; reflexivity.
Qed.

Lemma credentials_settle (t : nat) (o : BodyOut * World) :
  _credentials (settle t o) = _credentials o.2.
Proof.
  destruct o as [[|e|on] w]; cbn; try apply credentials_resume. reflexivity.
Qed.

Lemma credentials_join (t : nat) (w : World) :
  _credentials (authorize_join t w).2 = _credentials w.
Proof.
  unfold authorize_join. destruct (task_status w t); try reflexivity. cbn.
  destruct (_unsub w) as [u|]; [|reflexivity].
  apply (unsubscribe_frame u (set_authorize_task None w)).
Qed.

Lemma credentials_store (o : StepOut * World) :
  _credentials (store_authorize o).2 = _credentials o.2.
Proof. destruct o as [[r|e|t] w]; reflexivity. Qed.

(** The body clears the credentials in one case only. *)
Lemma credentials_body (dev : Device) (w : World) :
  _credentials (_do_provision dev w).2 = _credentials w
  \/ exists c, _credentials w = Some c
       /\ provision dev (ncalls OpProvision (calls w)) (ssid c) (password c)
          = Raises (ProvisioningFailed UNABLE_TO_CONNECT)
       /\ _credentials (_do_provision dev w).2 = None.
Proof.
  unfold _do_provision.
  destruct (_credentials w) as [cred|] eqn:Ec; [|left; exact Ec].
  destruct (negb (_device w)); [left; exact Ec|].
  destruct (provision dev _ _ _) as [url|e] eqn:Ep.
  - left. cbn. destruct url as [[|a s]|]; exact Ec.
  - destruct e; cbn; try (left; exact Ec).
    repeat case_bool_decide; subst; cbn.
    + left. unfold store_authorize.
      pose proof (credentials_authorize dev
        (log_call (CProvision (ssid cred) (password cred)) w)) as Hauth.
      destruct (async_step_authorize _ _) as [[r|e|t] w1]; cbn in *;
        rewrite Hauth; exact Ec.
    + right. exists cred. auto.
    + left. exact Ec.
Qed.

(** C9, amended: the stored credentials change in two ways only.  The
    provision step stores what the operator submitted, each time it is
    submitted; and the provisioning body clears them when its call to
    [provision] fails with [ProvisioningFailed(UNABLE_TO_CONNECT)], each time
    that happens.  No other step, notification or task turn changes them. *)
Theorem C9_credentials_change_only_by_input_or_unable_to_connect
    (dev : Device) (a : Action) (w : World) :
  (_credentials (act dev a w) = _credentials w
   \/ (exists ui, a = Invoke provision_step (Some ui)
         /\ _credentials (act dev a w)
            = Some (mkCredentials (default EmptyString (ui_password ui)) (ui_ssid ui)))
   \/ (exists t c, a = RunTask t
         /\ tasks w !! t = Some (DoProvision, Pending)
         /\ _credentials w = Some c
         /\ provision dev (ncalls OpProvision (calls w)) (ssid c) (password c)
            = Raises (ProvisioningFailed UNABLE_TO_CONNECT)
         /\ _credentials (act dev a w) = None))
  /\ (forall t c,
        tasks w !! t = Some (DoProvision, Pending) ->
        _device w = true ->
        _credentials w = Some c ->
        provision dev (ncalls OpProvision (calls w)) (ssid c) (password c)
          = Raises (ProvisioningFailed UNABLE_TO_CONNECT) ->
        _credentials (run_task dev t w) = None).
Proof.
  split.
  - destruct a as [s ui|st|t]; cbn.
    + destruct (credentials_step dev s ui w) as [H | (i & -> & -> & H)];
        [left; exact H|right; left; eauto].
    + left. apply (notify_ok st w).
    + unfold run_task.
      destruct (tasks w !! t) as [[[|ev] [|on| |e]]|] eqn:Hl; try (left; reflexivity).
      * rewrite credentials_settle.
        destruct (credentials_body dev w) as [H | (c & Hc & Hp & H)];
          [left; exact H|].
        right. right. exists t, c. auto.
      * left. destruct (task_status w on); try reflexivity;
          rewrite credentials_settle, credentials_store; apply credentials_join.
  - intros t c Hl Hd Hc Hp. unfold run_task. rewrite Hl, credentials_settle.
    rewrite (do_provision_unable_to_connect dev w c Hc Hd Hp). reflexivity.
Qed.

Lemma C9_credentials_change_only_by_input_or_unable_to_connect_witness :
  _credentials (run_task unreachable_device 0 w_provisioning) = None.
Proof.
  pose proof (C9_credentials_change_only_by_input_or_unable_to_connect
                unreachable_device (RunTask 0) w_provisioning) as [_ H].
  exact (H 0 (mkCredentials "secret" "home") eq_refl eq_refl eq_refl eq_refl).
Defined.

(** ** C7 *)

Lemma query_free_refl (w : World) : query_free w w.
Proof. split; reflexivity. Qed.

























(** ** C5 *)

(** C5 fails as stated: the flow has subscribed and waits for authorization;
    removed at that point, it leaves the registration active and unreleased. *)
Lemma C5_counterexample :
  _unsub w_waiting = Some 0
  /\ subs w_waiting !! 0 = Some (mkSubscription true false 0)
  /\ subs (async_remove w_waiting) !! 0 = Some (mkSubscription true false 0).
Proof. repeat split; reflexivity. Qed.

Lemma released_same (u : nat) (r : Subscription) (w w' : World) :
  subs w' = subs w -> _unsub w' = _unsub w -> released u r w -> released u r w'.
Proof. intros Es Eu (H1 & H2 & H3). unfold released. rewrite Es, Eu. auto. Qed.

Ltac kept R := refine (released_same _ _ _ _ _ _ R); try reflexivity.

Lemma released_join (t u : nat) (r : Subscription) (w : World) :
  released u r w -> released u r (authorize_join t w).2.
Proof.
  intros R. unfold authorize_join. destruct (task_status w t); try exact R. cbn.
  destruct (_unsub w) as [u'|] eqn:Eu; [|kept R; exact Eu].
  destruct R as (H1 & H2 & H3). rewrite Eu in H3.
  split; [|split; [exact H2|cbn; discriminate]]. cbn.
  unfold unsubscribe. cbn. destruct (subs w !! u') as [s|]; [|exact H1]. cbn.
  rewrite list_lookup_insert_ne by congruence. exact H1.
Qed.

Lemma released_authorize (dev : Device) (u : nat) (r : Subscription) (w : World) :
  released u r w -> released u r (async_step_authorize dev w).2.
Proof.
  intros R. unfold async_step_authorize.
  destruct (negb (_device w)); [exact R|].
  destruct (_authorize_task w) as [t|]; [apply released_join, R|].
  destruct (_try_call _); cbn; try exact R.
  destruct R as (H1 & H2 & H3).
  assert (Hlt : u < length (subs w)) by (eapply lookup_lt_Some; exact H1).
  split; [|split; [exact H2|]]; cbn.
  - apply lookup_app_l_Some. exact H1.
  - intros [= E]. lia.
Qed.

Lemma released_do_provision_step (u : nat) (r : Subscription) (w : World) :
  released u r w -> released u r (async_step_do_provision w).2.
Proof.
  intros R. unfold async_step_do_provision.
  destruct (_provision_task w) as [t|]; [destruct (task_status w t)|]; exact R.
Qed.

Lemma released_provision (dev : Device) (ui : option UserInput) (u : nat)
    (r : Subscription) (w : World) :
  released u r w -> released u r (async_step_provision dev ui w).2.
Proof.
  intros R. unfold async_step_provision.
  destruct (negb (_device w)); [exact R|].
  set (w1 := match ui with Some _ => _ | None => w end).
  assert (R1 : released u r (log_call CNeedAuthorization w1)).
  { unfold w1. destruct ui; exact R. }
  destruct ui as [i|]; [|destruct (_credentials w); [|exact R]];
    (destruct (_try_call _) as [[]| |]; cbn;
     [apply released_authorize, R1 | apply released_do_provision_step, R1
      | exact R1 | exact R1]).
Qed.

Lemma released_start_improv (dev : Device) (u : nat) (r : Subscription)
    (w : World) :
  released u r w -> released u r (async_step_start_improv dev w).2.
Proof.
  intros R. unfold async_step_start_improv.
  destruct (_discovery_info w) as [old|]; [|exact R].
  destruct (last_service_info dev _ _) as [di|]; [|exact R].
  destruct (already_provisioned _); [exact R|].
  set (w1 := set_discovery_info _ _).
  set (w2 := if _device w1 then w1 else set_device true w1).
  assert (R2 : released u r w2) by (unfold w2; destruct (_device w1); exact R).
  destruct (_can_identify w2) as [b|].
  - destruct b; [exact R2|apply released_provision, R2].
  - destruct (_try_call _) as [[]| |]; cbn; try exact R2.
    apply released_provision. exact R2.
Qed.

Lemma released_step (dev : Device) (s : StepId) (ui : option UserInput)
    (u : nat) (r : Subscription) (w : World) :
  released u r w -> released u r (step dev s ui w).2.
Proof.
  intros R. destruct s; cbn.
  - apply released_start_improv, R.
  - exact R.
  - unfold async_step_identify.
    destruct (negb (_device w)); [exact R|].
    destruct ui; [apply released_start_improv, R|].
    destruct (_try_call _); exact R.
  - apply released_provision, R.
  - apply released_do_provision_step, R.
  - unfold async_step_provision_done.
    destruct (_provision_result w); exact R.
  - apply released_authorize, R.
Qed.

Lemma released_resume (t : nat) (s : TaskStatus) (u : nat) (r : Subscription)
    (w : World) :
  released u r w -> released u r (_resume_flow_when_done t s w).
Proof.
  intros R. unfold _resume_flow_when_done.
  destruct (tasks w !! t) as [[c s0]|]; exact R.
Qed.

Lemma released_settle (t : nat) (o : BodyOut * World) (u : nat)
    (r : Subscription) :
  released u r o.2 -> released u r (settle t o).
Proof.
  destruct o as [[|e|on] w]; cbn; intros R; try apply released_resume, R.
  exact R.
Qed.

Lemma released_store (o : StepOut * World) (u : nat) (r : Subscription) :
  released u r o.2 -> released u r (store_authorize o).2.
Proof. destruct o as [[x|e|t] w]; cbn; intros R; exact R. Qed.

Lemma released_body (dev : Device) (u : nat) (r : Subscription) (w : World) :
  released u r w -> released u r (_do_provision dev w).2.
Proof.
  intros R. unfold _do_provision.
  destruct (_credentials w) as [cred|]; [|exact R].
  destruct (negb (_device w)); [exact R|].
  destruct (_try_call _) as [[[|a s]|]|reason|e]; cbn; try exact R.
  destruct e; cbn; try exact R.
  repeat case_bool_decide; cbn; try exact R.
  apply released_store, released_authorize. exact R.
Qed.

Lemma released_wake (ts : list Task) (i u : nat) (r : Subscription) (w : World) :
  released u r w -> released u r (wake_from i ts w).
Proof.
  revert i w. induction ts as [|t ts IH]; intros i w R; [exact R|].
  cbn. apply IH. destruct (wakes (subs w) t); [apply released_resume|]; exact R.
Qed.

Lemma released_notify (state : State) (u : nat) (r : Subscription) (w : World) :
  released u r w -> released u r (notify state w).
Proof.
  intros (H1 & H2 & H3). unfold notify. apply released_wake.
  split; [|split; [exact H2|exact H3]]. cbn.
  rewrite list_lookup_fmap, H1. cbn. unfold on_state_update. rewrite H2.
  reflexivity.
Qed.

Lemma released_act (dev : Device) (a : Action) (u : nat) (r : Subscription)
    (w : World) :
  released u r w -> released u r (act dev a w).
Proof.
  intros R. destruct a as [s ui|st|t]; unfold act.
  - apply released_step, R.
  - apply released_notify, R.
  - unfold run_task.
    destruct (tasks w !! t) as [[[|ev] [|on| |e]]|]; try exact R.
    + apply released_settle, released_body, R.
    + destruct (task_status w on); try exact R;
        apply released_settle, released_store, released_join, R.
Qed.

Lemma released_run (dev : Device) (l : list Action) (u : nat) (r : Subscription)
    (w : World) :
  released u r w -> released u r (run dev l w).
Proof.
  revert w. induction l as [|a l IH]; intros w R; [exact R|].
  cbn. apply IH, released_act, R.
Qed.

(** C5, amended: when the authorization wait has completed and the authorize
    step is resumed, the step calls the unsubscribe handle exactly once (the
    registration becomes inactive and its release count goes up by one) and
    forgets the handle; whatever steps, notifications and task turns follow,
    in any order, that registration is never released again nor reactivated.
    Removing the flow from outside runs no code of the flow and releases
    nothing. *)
Theorem C5_released_once_on_completion (dev : Device) (w : World) (a u : nat)
    (sb : Subscription) :
  _device w = true ->
  _authorize_task w = Some a ->
  task_status w a = Done ->
  _unsub w = Some u ->
  subs w !! u = Some sb ->
  let w' := (async_step_authorize dev w).2 in
  let sb' := mkSubscription false (event_set sb) (S (releases sb)) in
  (async_step_authorize dev w).1 = Ret (async_show_progress_done "provision")
  /\ subs w' !! u = Some sb'
  /\ _unsub w' = None
  /\ _authorize_task w' = None
  /\ (forall l, subs (run dev l w') !! u = Some sb')
  /\ subs (async_remove w) !! u = Some sb.
Proof.
  intros Hd Ha Hs Hu Hl w' sb'.
  assert (E : async_step_authorize dev w
              = (Ret (async_show_progress_done "provision"),
                 set_unsub None
                   (set_subs (<[u := sb']> (subs w)) (set_authorize_task None w)))).
  { unfold async_step_authorize, authorize_join. rewrite Hd, Ha. cbn.
    rewrite Hs. cbn. rewrite Hu. unfold unsubscribe. cbn. rewrite Hl.
    reflexivity. }
  assert (Hlt : u < length (subs w)) by (eapply lookup_lt_Some; exact Hl).
  assert (R : released u sb' w').
  { unfold w'. rewrite E. split; [|split; [reflexivity|discriminate]]. cbn.
    apply list_lookup_insert_eq. exact Hlt. }
  split; [rewrite E; reflexivity|].
  split; [apply R|].
  split; [unfold w'; rewrite E; reflexivity|].
  split; [unfold w'; rewrite E; reflexivity|].
  split; [intros l; apply (released_run dev l u sb' w' R)|exact Hl].
Qed.

Lemma C5_released_once_on_completion_witness :
  subs (async_step_authorize locked_device w_authorized).2 !! 0
  = Some (mkSubscription false true 1)
  /\ subs (run locked_device
             [Notify AUTHORIZED; Invoke provision_step None; RunTask 1;
              Invoke authorize None]
             (async_step_authorize locked_device w_authorized).2) !! 0
     = Some (mkSubscription false true 1).
Proof.
  pose proof (C5_released_once_on_completion locked_device w_authorized 0 0
                (mkSubscription true true 0)
                eq_refl eq_refl eq_refl eq_refl eq_refl) as H.
  cbv zeta in H. destruct H as (_ & H2 & _ & _ & H5 & _).
  exact (conj H2 (H5 _)).
Defined.

(** * Further properties of the flow *)

(** ** Leaving [async_step_start_improv] early *)






(** ** What is sent to the device *)

Lemma authorize_log (dev : Device) (w : World) :
  calls (async_step_authorize dev w).2 = calls w
  \/ calls (async_step_authorize dev w).2 = CSubscribe :: calls w.
Proof.
  unfold async_step_authorize.
  destruct (negb (_device w)); [left; reflexivity|].
  destruct (_authorize_task w) as [t|].
  - left. unfold authorize_join. destruct (task_status w t); try reflexivity.
    cbn. destruct (_unsub w) as [u|]; [|reflexivity]. cbn.
    unfold unsubscribe. cbn. destruct (subs w !! u); reflexivity.
  - right. destruct (_try_call _); reflexivity.
Qed.

(** X3: what the operator enters on the provision form is what the device
    is given: with no authorization needed, the provision step starts a task
    whose body calls [provision] with the submitted network name as SSID and
    the submitted password, the empty string when none was entered, and that
    call directly follows the [need_authorization] query in the order of
    calls. *)
Theorem X3_provision_sends_what_was_entered (dev : Device) (w : World)
    (ui : UserInput) :
  _device w = true ->
  _provision_task w = None ->
  need_authorization dev (ncalls OpNeedAuthorization (calls w)) = Returns false ->
  let w1 := (async_step_provision dev (Some ui) w).2 in
  let t := length (tasks w) in
  let sent := CProvision (ui_ssid ui) (default EmptyString (ui_password ui)) in
  tasks w1 !! t = Some (DoProvision, Pending)
  /\ exists later,
       calls (run_task dev t w1) = later ++ sent :: CNeedAuthorization :: calls w
       /\ (later = [] \/ later = [CSubscribe]).
Proof.
  intros Hd Hp Hn w1 t sent.
  set (cred := mkCredentials (default EmptyString (ui_password ui)) (ui_ssid ui)).
  assert (E1 : w1 = set_provision_task (Some t)
                      (set_tasks (tasks w ++ [(DoProvision, Pending)])
                         (log_call CNeedAuthorization
                            (set_credentials (Some cred) w)))).
  { unfold w1, async_step_provision. rewrite Hd. cbn. rewrite Hn. cbn.
    unfold async_step_do_provision. cbn. rewrite Hp. reflexivity. }
  clearbody w1.
  assert (Hl : tasks w1 !! t = Some (DoProvision, Pending)).
  { rewrite E1. cbn. apply list_lookup_middle. reflexivity. }
  split; [exact Hl|].
  unfold run_task. rewrite Hl, settle_calls.
  unfold _do_provision.
  replace (_credentials w1) with (Some cred) by (rewrite E1; reflexivity).
  replace (_device w1) with true by (rewrite E1; cbn; congruence).
  cbn.
  assert (C1 : calls w1 = CNeedAuthorization :: calls w)
    by (rewrite E1; reflexivity).
  assert (Hst : forall o : StepOut * World,
            calls (store_authorize o).2 = calls o.2)
    by (intros [[r|e|t0] w3]; reflexivity).
  destruct (_try_call _) as [[[|a s]|]|reason|e]; cbn;
    try (exists []; split; [rewrite C1; reflexivity|left; reflexivity]).
  destruct e; cbn;
    try (exists []; split; [rewrite C1; reflexivity|left; reflexivity]).
  repeat case_bool_decide; cbn;
    try (exists []; split; [rewrite C1; reflexivity|left; reflexivity]).
  rewrite Hst.
  match goal with
  | |- context [async_step_authorize dev ?x] =>
      destruct (authorize_log dev x) as [-> | ->]
  end; cbn; rewrite C1;
    [exists []; split; [reflexivity|left; reflexivity]
    |exists [CSubscribe]; split; [reflexivity|right; reflexivity]].
Qed.

Lemma X3_provision_sends_what_was_entered_witness :
  exists later,
    calls (run_task plain_device 0
             (async_step_provision plain_device guest_wifi w_form).2)
    = later ++ CProvision "guest" EmptyString :: CNeedAuthorization :: calls w_form.
Proof.
  pose proof (X3_provision_sends_what_was_entered plain_device w_form
                (mkUserInput "guest" None) eq_refl eq_refl eq_refl) as H.
  cbv zeta in H. destruct H as (_ & later & H & _).
  exists later. exact H.
Defined.

(** ** A provisioning task that fails *)

Lemma settle_frame (t : nat) (o : BodyOut * World) (j : nat) (x : Task) :
  j ≠ t -> tasks o.2 !! j = Some x ->
  tasks (settle t o) !! j = Some x
  /\ _provision_task (settle t o) = _provision_task o.2.
Proof.
  intros Hne Hl. destruct o as [[|e|on] w]; cbn in *.
  - unfold _resume_flow_when_done. destruct (tasks w !! t) as [[c s]|]; cbn;
      [rewrite list_lookup_insert_ne by congruence|]; auto.
  - unfold _resume_flow_when_done. destruct (tasks w !! t) as [[c s]|]; cbn;
      [rewrite list_lookup_insert_ne by congruence|]; auto.
  - rewrite list_lookup_insert_ne by congruence. auto.
Qed.

(** A task turn leaves the recorded provisioning handle and every settled
    task as they are. *)
Lemma run_task_frame (dev : Device) (t' : nat) (w : World) (j : nat) (c : Coro)
    (s : TaskStatus) :
  unsettled s = false ->
  tasks w !! j = Some (c, s) ->
  tasks (run_task dev t' w) !! j = Some (c, s)
  /\ _provision_task (run_task dev t' w) = _provision_task w.
Proof.
  intros Hs Hl. unfold run_task.
  destruct (tasks w !! t') as [[[|ev] [|on| |e]]|] eqn:Hl'; auto.
  - assert (Hne : j ≠ t') by (intros ->; rewrite Hl in Hl'; injection Hl' as _ ->; discriminate).
    pose proof (do_provision_frame dev w) as (F1 & (l & F2) & _).
    destruct (_do_provision dev w) as [b w1]. cbn in F1, F2.
    assert (Hl1 : tasks w1 !! j = Some (c, s))
      by (rewrite F2; apply lookup_app_l_Some; exact Hl).
    destruct (settle_frame t' (b, w1) j _ Hne Hl1) as [A B].
    split; [exact A|]. rewrite B. exact F1.
  - assert (Hne : j ≠ t') by (intros ->; rewrite Hl in Hl'; injection Hl' as _ ->; discriminate).
    destruct (task_status w on); auto;
      (pose proof (join_tasks on w) as [F2 F1];
       pose proof (store_authorize_tasks (authorize_join on w)) as F3;
       assert (F4 : _provision_task (store_authorize (authorize_join on w)).2
                    = _provision_task (authorize_join on w).2)
         by (destruct (authorize_join on w) as [[r|e0|t0] w0]; reflexivity);
       destruct (store_authorize (authorize_join on w)) as [b w1];
       cbn in F3, F4;
       assert (Hl1 : tasks w1 !! j = Some (c, s)) by (rewrite F3, F2; exact Hl);
       destruct (settle_frame t' (b, w1) j _ Hne Hl1) as [A B];
       split; [exact A|rewrite B; cbn; congruence]).
Qed.

Lemma stuck_receive (dev : Device) (t : nat) (e : Exn) (ev : Event) (m : Managed) :
  stuck t e m -> stuck t e (receive dev ev m).
Proof.
  intros (Hc & Hp & Hl). destruct ev as [ui|s|st|t']; cbn [receive].
  - rewrite Hc. unfold dispatch. cbn [step]. unfold async_step_do_provision.
    rewrite Hp, (task_status_lookup _ _ _ _ Hl). cbn. rewrite Hc.
    split; [reflexivity|]. split; assumption.
  - rewrite Hc. split; [exact Hc|]. split; assumption.
  - destruct (notify_ok st (flow m)) as (_ & W & _).
    destruct W as (_ & Wp & _ & _ & _ & _ & Wl & Wt).
    split; [exact Hc|]. cbn [flow]. split; [rewrite Wp; exact Hp|].
    assert (Hlt : t < length (tasks (notify st (flow m))))
      by (rewrite Wl; eapply lookup_lt_Some; exact Hl).
    destruct (lookup_lt_is_Some_2 _ _ Hlt) as [[c' s'] Hl'].
    destruct (Wt _ _ _ Hl') as [Hsame | (u & -> & -> & Hold)];
      [|rewrite Hl in Hold; discriminate].
    rewrite Hl in Hsame. rewrite Hl'. congruence.
  - destruct (run_task_frame dev t' (flow m) t DoProvision (Failed e) eq_refl Hl)
      as [A B].
    split; [exact Hc|]. cbn [flow]. split; [rewrite B; exact Hp|exact A].
Qed.

(** X4: when the body of a provisioning task is left by a plain
    [CommandFailed] from [provision], the task fails, one resumption is still
    scheduled, and no result is stored.  From then on [async_step_do_provision]
    re-raises the exception without resetting the task handle, so whatever
    requests, notifications and task turns follow, the manager stays on the
    progress step of that task and every request ends with the same
    exception. *)
Theorem X4_failed_provisioning_is_never_delivered (dev : Device) (m : Managed)
    (cred : Credentials) (t : nat) :
  cur_step m = Some do_provision ->
  _provision_task (flow m) = Some t ->
  tasks (flow m) !! t = Some (DoProvision, Pending) ->
  _credentials (flow m) = Some cred ->
  _device (flow m) = true ->
  provision dev (ncalls OpProvision (calls (flow m))) (ssid cred) (password cred)
    = Raises CommandFailed ->
  let m1 := receive dev (Turn t) m in
  resumptions (flow m1) = S (resumptions (flow m))
  /\ _provision_result (flow m1) = _provision_result (flow m)
  /\ forall l ui,
       let m2 := manage dev l m1 in
       stuck t CommandFailed m2
       /\ step dev do_provision ui (flow m2) = (Exc CommandFailed, flow m2)
       /\ receive dev (Configure ui) m2 = m2.
Proof.
  intros Hc Hp Hl Hcr Hd Ha m1.
  assert (Eb : _do_provision dev (flow m)
               = (BRaise CommandFailed,
                  log_call (CProvision (ssid cred) (password cred)) (flow m))).
  { unfold _do_provision. rewrite Hcr, Hd. cbn. rewrite Ha. reflexivity. }
  assert (E1 : flow m1
               = _resume_flow_when_done t (Failed CommandFailed)
                   (log_call (CProvision (ssid cred) (password cred)) (flow m))).
  { unfold m1. cbn. unfold run_task. rewrite Hl, Eb. reflexivity. }
  assert (Hlt : t < length (tasks (flow m))) by (eapply lookup_lt_Some; exact Hl).
  assert (S1 : stuck t CommandFailed m1).
  { split; [exact Hc|]. rewrite E1. unfold _resume_flow_when_done. cbn.
    rewrite Hl. cbn. split; [exact Hp|].
    apply list_lookup_insert_eq. exact Hlt. }
  split; [rewrite E1; unfold _resume_flow_when_done; cbn; rewrite Hl; reflexivity|].
  split; [rewrite E1; unfold _resume_flow_when_done; cbn; rewrite Hl; reflexivity|].
  intros l ui m2.
  assert (S2 : stuck t CommandFailed m2).
  { unfold m2. clear -S1. revert S1. generalize m1.
    induction l as [|ev l IH]; intros m0 S0; [exact S0|].
    cbn. apply IH, stuck_receive, S0. }
  clearbody m2. split; [exact S2|].
  destruct S2 as (Hc2 & Hp2 & Hl2).
  assert (Es : step dev do_provision ui (flow m2) = (Exc CommandFailed, flow m2)).
  { cbn [step]. unfold async_step_do_provision.
    rewrite Hp2, (task_status_lookup _ _ _ _ Hl2). reflexivity. }
  split; [exact Es|].
  cbn [receive]. rewrite Hc2. unfold dispatch. rewrite Es.
  destruct m2; reflexivity.
Qed.

Lemma X4_failed_provisioning_is_never_delivered_witness :
  let m2 := manage broken_device [Configure None; Report AUTHORIZED; Turn 0]
              (receive broken_device (Turn 0) m_provisioning) in
  stuck 0 CommandFailed m2
  /\ receive broken_device (Configure None) m2 = m2.
Proof.
  intros m2.
  pose proof (X4_failed_provisioning_is_never_delivered broken_device
                m_provisioning (mkCredentials "secret" "home") 0
                eq_refl eq_refl eq_refl eq_refl eq_refl eq_refl) as H.
  cbv zeta in H. destruct H as (_ & _ & H).
  destruct (H [Configure None; Report AUTHORIZED; Turn 0] None) as (H1 & _ & H3).
  exact (conj H1 H3).
Defined.

(** ** Lifting an invariant from the elementary updates to every action *)

Section Lifting.
Variable dev : Device.
Variable P : World -> Prop.
Hypothesis P_log : forall c w, P w -> P (log_call c w).
Hypothesis P_capture : forall c w, P w -> P (set_credentials (Some c) w).
Hypothesis P_clear : forall w, P w -> P (set_credentials None w).
Hypothesis P_result : forall v w, P w -> P (set_provision_result v w).
Hypothesis P_info : forall v w, P w -> P (set_discovery_info v w).
Hypothesis P_device : forall w, P w -> P (set_device true w).
Hypothesis P_can : forall v w, P w -> P (set_can_identify v w).
Hypothesis P_flows : forall w, P w -> P (abort_same_unique_id w).
Hypothesis P_start : forall w,
  _provision_task w = None -> P w ->
  P (set_provision_task (Some (length (tasks w)))
       (set_tasks (tasks w ++ [(DoProvision, Pending)]) w)).
Hypothesis P_reset : forall t w,
  _provision_task w = Some t -> task_status w t = Done -> P w ->
  P (set_provision_task None w).
Hypothesis P_authorize : forall w, P w -> P (async_step_authorize dev w).2.
Hypothesis P_join : forall t w, P w -> P (authorize_join t w).2.
Hypothesis P_resume : forall t s w,
  unsettled s = false -> P w -> P (_resume_flow_when_done t s w).
Hypothesis P_park : forall t on w,
  P w -> P (set_tasks (<[t := (DoProvision, Suspended on)]> (tasks w)) w).
Hypothesis P_hear : forall st w,
  P w -> P (set_subs (on_state_update st <$> subs w) w).

Lemma lift_do_provision_step (w : World) :
  P w -> P (async_step_do_provision w).2.
Proof.
  intros H. unfold async_step_do_provision.
  destruct (_provision_task w) as [t|] eqn:Ep.
  - destruct (task_status w t) eqn:Es; try exact H. exact (P_reset t w Ep Es H).
  - exact (P_start w Ep H).
Qed.

Lemma lift_provision (ui : option UserInput) (w : World) :
  P w -> P (async_step_provision dev ui w).2.
Proof.
  intros H. unfold async_step_provision.
  destruct (negb (_device w)); [exact H|].
  set (w1 := match ui with Some _ => _ | None => w end).
  assert (H1 : P (log_call CNeedAuthorization w1)).
  { apply P_log. unfold w1. destruct ui; [apply P_capture|]; exact H. }
  destruct ui as [i|]; [|destruct (_credentials w); [|exact H]];
    (destruct (_try_call _) as [[]| |]; cbn;
     [apply P_authorize, H1 | apply lift_do_provision_step, H1
      | exact H1 | exact H1]).
Qed.

Lemma lift_start_improv (w : World) :
  P w -> P (async_step_start_improv dev w).2.
Proof.
  intros H. unfold async_step_start_improv.
  destruct (_discovery_info w) as [old|]; [|exact H].
  assert (H1 : forall v, P (set_discovery_info v (log_call CLastServiceInfo w)))
    by (intros v; apply P_info, P_log, H).
  destruct (last_service_info dev _ _) as [di|]; [|apply H1].
  destruct (already_provisioned _); [apply H1|].
  set (w1 := set_discovery_info _ _).
  set (w2 := if _device w1 then w1 else set_device true w1).
  assert (H2 : P w2).
  { unfold w2. destruct (_device w1); [|apply P_device]; apply H1. }
  destruct (_can_identify w2) as [b|].
  - destruct b; [exact H2|apply lift_provision, H2].
  - assert (H3 : P (log_call CCanIdentify w2)) by apply P_log, H2.
    destruct (_try_call _) as [[]| |]; cbn; try exact H3.
    + apply P_can, H3.
    + apply lift_provision, P_can, H3.
Qed.

Lemma lift_step (s : StepId) (ui : option UserInput) (w : World) :
  P w -> P (step dev s ui w).2.
Proof.
  intros H. destruct s; cbn [step].
  - apply lift_start_improv, H.
  - exact H.
  - unfold async_step_identify.
    destruct (negb (_device w)); [exact H|].
    destruct ui; [apply lift_start_improv, H|].
    destruct (_try_call _); apply P_log, H.
  - apply lift_provision, H.
  - apply lift_do_provision_step, H.
  - unfold async_step_provision_done.
    destruct (_provision_result w); [apply P_result|]; exact H.
  - apply P_authorize, H.
Qed.

Lemma lift_store (o : StepOut * World) : P o.2 -> P (store_authorize o).2.
Proof. destruct o as [[r|e|t] w]; cbn; intros H; [apply P_result|..]; exact H. Qed.

Lemma lift_body (w : World) : P w -> P (_do_provision dev w).2.
Proof.
  intros H. unfold _do_provision.
  destruct (_credentials w) as [cred|]; [|exact H].
  destruct (negb (_device w)); [exact H|].
  assert (H1 : P (log_call (CProvision (ssid cred) (password cred)) w))
    by apply P_log, H.
  destruct (_try_call _) as [[[|a s]|]|reason|e]; cbn;
    try (apply P_result, P_flows, H1); try (apply P_result, H1).
  destruct e; cbn; try exact H1.
  repeat case_bool_decide; cbn.
  - apply lift_store, P_authorize, H1.
  - apply P_result, P_clear, H1.
  - apply P_result, H1.
Qed.

Lemma lift_settle (t : nat) (o : BodyOut * World) : P o.2 -> P (settle t o).
Proof.
  destruct o as [[|e|on] w]; cbn; intros H.
  - apply P_resume; [reflexivity|exact H].
  - apply P_resume; [reflexivity|exact H].
  - apply P_park, H.
Qed.

Lemma lift_run_task (t : nat) (w : World) : P w -> P (run_task dev t w).
Proof.
  intros H. unfold run_task.
  destruct (tasks w !! t) as [[[|ev] [|on| |e]]|]; try exact H.
  - apply lift_settle, lift_body, H.
  - destruct (task_status w on); try exact H;
      apply lift_settle, lift_store, P_join, H.
Qed.

Lemma lift_wake (ts : list Task) (i : nat) (w : World) :
  P w -> P (wake_from i ts w).
Proof.
  revert i w. induction ts as [|t ts IH]; intros i w H; [exact H|].
  cbn. apply IH. destruct (wakes (subs w) t); [|exact H].
  apply P_resume; [reflexivity|exact H].
Qed.

Lemma lift_notify (st : State) (w : World) : P w -> P (notify st w).
Proof. intros H. unfold notify. apply lift_wake, P_hear, H. Qed.

Lemma lift_act (a : Action) (w : World) : P w -> P (act dev a w).
Proof.
  intros H. destruct a as [s ui|st|t]; unfold act.
  - apply lift_step, H.
  - apply lift_notify, H.
  - apply lift_run_task, H.
Qed.

Lemma lift_run (l : list Action) (w : World) : P w -> P (run dev l w).
Proof.
  revert w. induction l as [|a l IH]; intros w H; [exact H|].
  cbn. apply IH, lift_act, H.
Qed.

Lemma lift_receive (e : Event) (m : Managed) :
  P (flow m) -> P (flow (receive dev e m)).
Proof.
  intros H.
  assert (D : forall s ui, P (flow (dispatch dev s ui m))).
  { intros s ui. unfold dispatch. pose proof (lift_step s ui (flow m) H) as H'.
    destruct (step dev s ui (flow m)) as [o w']. exact H'. }
  destruct e as [ui|s|st|t]; cbn [receive].
  - destruct (cur_step m); [apply D|exact H].
  - destruct (cur_step m) as [[]|]; try exact H.
    destruct s; try exact H; apply D.
  - apply lift_notify, H.
  - apply lift_run_task, H.
Qed.

Lemma lift_manage (l : list Event) (m : Managed) :
  P (flow m) -> P (flow (manage dev l m)).
Proof.
  revert m. induction l as [|e l IH]; intros m H; [exact H|].
  cbn. apply IH, lift_receive, H.
Qed.

End Lifting.

(** ** One live subscription *)

Lemma one_subscription_same (w w' : World) :
  subs w' = subs w -> _unsub w' = _unsub w ->
  _authorize_task w' = _authorize_task w ->
  one_subscription w -> one_subscription w'.
Proof.
  intros Es Eu Ea [H1 H2]. unfold one_subscription. rewrite Es, Eu, Ea. auto.
Qed.

Ltac same_subs H := refine (one_subscription_same _ _ _ _ _ H); reflexivity.

Lemma one_subscription_join (t : nat) (w : World) :
  one_subscription w -> one_subscription (authorize_join t w).2.
Proof.
  intros [H1 H2]. unfold authorize_join.
  destruct (task_status w t); try (split; assumption). cbn.
  destruct (_unsub w) as [u|] eqn:Eu.
  - split; [reflexivity|]. cbn. intros u' s Hl Ha. exfalso.
    unfold unsubscribe in Hl. cbn in Hl.
    destruct (subs w !! u) as [s0|] eqn:E0; cbn in Hl.
    + destruct (decide (u = u')) as [->|Hne].
      * rewrite list_lookup_insert_eq in Hl by (eapply lookup_lt_Some; exact E0).
        injection Hl as <-. discriminate.
      * rewrite list_lookup_insert_ne in Hl by exact Hne.
        specialize (H2 _ _ Hl Ha). congruence.
    + specialize (H2 _ _ Hl Ha). congruence.
  - split; [intros _; exact Eu|]. cbn. intros u' s Hl Ha.
    specialize (H2 _ _ Hl Ha). congruence.
Qed.

Lemma one_subscription_authorize (dev : Device) (w : World) :
  one_subscription w -> one_subscription (async_step_authorize dev w).2.
Proof.
  intros H. unfold async_step_authorize.
  destruct (negb (_device w)); [exact H|].
  destruct (_authorize_task w) as [t|] eqn:Ea; [apply one_subscription_join, H|].
  destruct (_try_call _); cbn; try same_subs H.
  destruct H as [H1 H2]. specialize (H1 Ea).
  split; [discriminate|]. cbn. intros u s Hl Hact.
  apply lookup_app_Some in Hl. destruct Hl as [Hl | [Hge Hl]].
  - specialize (H2 _ _ Hl Hact). congruence.
  - cbn in Hge.
    destruct (u - length (subs w)) as [|n] eqn:E; [|destruct n; discriminate].
    f_equal. lia.
Qed.

Lemma one_subscription_hear (st : State) (w : World) :
  one_subscription w ->
  one_subscription (set_subs (on_state_update st <$> subs w) w).
Proof.
  intros [H1 H2]. split; [exact H1|]. cbn. intros u s Hl Hact.
  rewrite list_lookup_fmap in Hl.
  destruct (subs w !! u) as [s0|] eqn:E0; [|discriminate].
  cbn in Hl. injection Hl as <-. apply (H2 u s0 E0).
  unfold on_state_update in Hact.
  destruct (active s0) eqn:Ea; [reflexivity|congruence].
Qed.

Lemma one_subscription_act (dev : Device) (a : Action) (w : World) :
  one_subscription w -> one_subscription (act dev a w).
Proof.
  apply lift_act.
  - intros c v H. same_subs H.
  - intros x v H. same_subs H.
  - intros v H. same_subs H.
  - intros x v H. same_subs H.
  - intros x v H. same_subs H.
  - intros v H. same_subs H.
  - intros x v H. same_subs H.
  - intros v H. same_subs H.
  - intros v _ H. same_subs H.
  - intros t v _ _ H. same_subs H.
  - apply one_subscription_authorize.
  - apply one_subscription_join.
  - intros t s v _ H. unfold _resume_flow_when_done.
    destruct (tasks v !! t) as [[c s0]|]; [same_subs H|exact H].
  - intros t on v H. same_subs H.
  - apply one_subscription_hear.
Qed.

Lemma one_subscription_fresh (fid : nat) (uid : option string)
    (di : DiscoveryInfo) (others : list FlowInfo) :
  one_subscription (fresh fid uid di others).
Proof.
  split; [reflexivity|]. intros u s Hl _. destruct u; discriminate Hl.
Qed.

Lemma one_subscription_run (dev : Device) (l : list Action) (w : World) :
  one_subscription w -> one_subscription (run dev l w).
Proof.
  revert w. induction l as [|a l IH]; intros w H; [exact H|].
  cbn. apply IH, one_subscription_act, H.
Qed.

(** X5: from the confirmation of the device on, however steps,
    notifications and task turns are ordered, at most one state-update
    subscription is registered at a time: a registered callback is always the
    one whose unsubscribe handle the flow holds in [_unsub], and the flow holds
    a handle only while an authorization wait is recorded. *)
Theorem X5_at_most_one_live_subscription (dev : Device) (fid : nat)
    (uid : option string) (di : DiscoveryInfo) (others : list FlowInfo)
    (l : list Action) :
  let w := run dev l (fresh fid uid di others) in
  (forall u u' s s',
     subs w !! u = Some s -> active s = true ->
     subs w !! u' = Some s' -> active s' = true -> u = u')
  /\ (forall u s, subs w !! u = Some s -> active s = true ->
        _unsub w = Some u /\ is_Some (_authorize_task w)).
Proof.
  intros w.
  assert (H : one_subscription w)
    by apply one_subscription_run, one_subscription_fresh.
  destruct H as [H1 H2]. split.
  - intros u u' s s' Hl Ha Hl' Ha'.
    pose proof (H2 _ _ Hl Ha) as E. pose proof (H2 _ _ Hl' Ha') as E'.
    congruence.
  - intros u s Hl Ha. pose proof (H2 _ _ Hl Ha) as Hu. split; [exact Hu|].
    destruct (_authorize_task w) as [t|]; [eauto|].
    specialize (H1 eq_refl). congruence.
Qed.

Lemma X5_at_most_one_live_subscription_witness :
  let w := run locked_device
             [Invoke start_improv None; Invoke provision_step home_wifi;
              Notify AUTHORIZED; Invoke authorize None;
              Invoke authorize None]
             (fresh 1 (Some "AA:BB") an_info []) in
  subs w !! 1 = Some (mkSubscription true false 0)
  /\ _unsub w = Some 1.
Proof.
  intros w.
  pose proof (X5_at_most_one_live_subscription locked_device 1 (Some "AA:BB")
                an_info []
                [Invoke start_improv None; Invoke provision_step home_wifi;
                 Notify AUTHORIZED; Invoke authorize None;
                 Invoke authorize None]) as H.
  cbv zeta in H. fold w in H. destruct H as [_ H].
  assert (Hl : subs w !! 1 = Some (mkSubscription true false 0)) by reflexivity.
  split; [exact Hl|]. exact (proj1 (H 1 _ Hl eq_refl)).
Defined.

(** ** The identify loop *)

Section IdentifyLoop.
Variable dev : Device.
Hypothesis in_range : forall k a, exists di,
  last_service_info dev k a = Some di /\ already_provisioned (adv_state di) = false.
Hypothesis identifies : forall k, identify dev k = Returns tt.

Lemma identify_round_effect (ui : UserInput) (w : World) :
  _device w = true -> _can_identify w = Some true -> is_Some (_discovery_info w) ->
  (async_step_identify dev None w).1 = Ret (async_show_form "identify" false None)
  /\ (async_step_identify dev (Some ui) (async_step_identify dev None w).2).1
     = Ret (async_show_menu "main_menu" ["identify"; "provision"])
  /\ exists di,
       identify_round dev ui w
       = set_discovery_info (Some di)
           (log_call CLastServiceInfo (log_call CIdentify w)).
Proof.
  intros Hd Hc [old Hi].
  assert (E1 : async_step_identify dev None w
               = (Ret (async_show_form "identify" false None), log_call CIdentify w)).
  { unfold async_step_identify. rewrite Hd. cbn. rewrite identifies. reflexivity. }
  destruct (in_range (ncalls OpLastServiceInfo (calls w)) (address old))
    as (di & Hf & Hp).
  assert (E2 : async_step_identify dev (Some ui) (log_call CIdentify w)
               = (Ret (async_show_menu "main_menu" ["identify"; "provision"]),
                  set_discovery_info (Some di)
                    (log_call CLastServiceInfo (log_call CIdentify w)))).
  { unfold async_step_identify. cbn. rewrite Hd. cbn.
    unfold async_step_start_improv. cbn. rewrite Hi, Hf, Hp. cbn.
    rewrite Hd. cbn. rewrite Hc. reflexivity. }
  unfold identify_round. rewrite E1. cbn. rewrite E2. eauto.
Qed.

(** X2: on a device that stays in range, stays unprovisioned and accepts
    the identify command, the operator can go round the identify loop any
    number of times from the main menu: each round shows the identify form and
    comes back to the main menu, [n] rounds issue exactly [n] identify
    commands, the capability is not queried again, and no task or subscription
    is started. *)
Theorem X2_identify_loop (ui : UserInput) (n : nat) (w : World) :
  _device w = true ->
  _can_identify w = Some true ->
  is_Some (_discovery_info w) ->
  let w' := Nat.iter n (identify_round dev ui) w in
  ncalls OpIdentify (calls w') = n + ncalls OpIdentify (calls w)
  /\ ncalls OpCanIdentify (calls w') = ncalls OpCanIdentify (calls w)
  /\ tasks w' = tasks w /\ subs w' = subs w
  /\ (async_step_identify dev None w').1
     = Ret (async_show_form "identify" false None)
  /\ (async_step_identify dev (Some ui) (async_step_identify dev None w').2).1
     = Ret (async_show_menu "main_menu" ["identify"; "provision"]).
Proof.
  intros Hd Hc Hi w'.
  assert (Inv : _device w' = true /\ _can_identify w' = Some true
                /\ is_Some (_discovery_info w')
                /\ ncalls OpIdentify (calls w') = n + ncalls OpIdentify (calls w)
                /\ ncalls OpCanIdentify (calls w') = ncalls OpCanIdentify (calls w)
                /\ tasks w' = tasks w /\ subs w' = subs w).
  { unfold w'. clear w'. induction n as [|n IH]; [cbn; auto 10|].
    destruct IH as (I1 & I2 & I3 & I4 & I5 & I6 & I7).
    destruct (identify_round_effect ui _ I1 I2 I3) as (_ & _ & di & E).
    rewrite Nat.iter_succ, E. cbn. rewrite I4, I5. eauto 10. }
  destruct Inv as (I1 & I2 & I3 & I4 & I5 & I6 & I7).
  destruct (identify_round_effect ui _ I1 I2 I3) as (O1 & O2 & _).
  auto 10.
Qed.

End IdentifyLoop.

Lemma X2_identify_loop_witness :
  let w' := Nat.iter 3 (identify_round blinking_device (mkUserInput EmptyString None))
              w_blinking in
  ncalls OpIdentify (calls w') = 3 /\ ncalls OpCanIdentify (calls w') = 1.
Proof.
  intros w'.
  pose proof (X2_identify_loop blinking_device
                (fun k a => ex_intro _ (mkDiscoveryInfo a AUTHORIZED)
                              (conj eq_refl eq_refl))
                (fun k => eq_refl) (mkUserInput EmptyString None) 3 w_blinking
                eq_refl eq_refl (ex_intro _ an_info eq_refl)) as H.
  cbv zeta in H. fold w' in H. destruct H as (H1 & H2 & _).
  split; [exact H1|exact H2].
Defined.
